(** * A multi-level direct-mapped cache and its backing memory

    Shallow embedding of the two SystemC modules of the project:
    [Memory] (paged byte store, [Memory::process_memory]) and [Cache]
    (two direct-mapped levels, [Cache::process_cache],
    [Cache::search_cache], [Cache::update_cache]).

    - [uint32_t] values are integers in [Z]; the wrap-around of unsigned
      arithmetic is written [wrap32].
    - [std::vector] is a [list]; [v[i]] outside the vector, and [/] or [%]
      by zero, have no defined behaviour in C++: the embedding makes them
      the outcome [Undefined], which every later step propagates.
    - One pass through the body of the [while (true)] loop of a clocked
      thread is one function from the module state and the sampled input
      signals to the new state and the driven output signals.
    - [cache.hpp] declares a one-level variant of [Cache] with ports towards
      the memory; no definition of its member functions is among the
      sources. The embedding follows the module that is defined. *)

From Stdlib Require Import ZArith List Bool Lia.
From stdpp Require Import base option list gmap.

Local Open Scope Z_scope.

(** ** Outcomes of C++ code: a value, or undefined behaviour *)

Inductive outcome (A : Type) : Type :=
| Value (a : A)
| Undefined.

Arguments Value {A} a.
Arguments Undefined {A}.

Definition obind {A B : Type} (m : outcome A) (k : A -> outcome B) : outcome B :=
  match m with
  | Value a => k a
  | Undefined => Undefined
  end.

Notation "'let*' x ':=' m 'in' k" := (obind m (fun x => k))
  (at level 10, x name, m at level 100, k at level 200).

(** ** Unsigned 32-bit arithmetic and vector accesses *)

Definition wrap32 (z : Z) : Z := z mod 2 ^ 32.

Definition is_u32 (z : Z) : Prop := 0 <= z < 2 ^ 32.

(** [a / b] on unsigned operands. *)
Definition udiv (a b : Z) : outcome Z :=
  if b =? 0 then Undefined else Value (a / b).

(** [a % b] on unsigned operands. *)
Definition umod (a b : Z) : outcome Z :=
  if b =? 0 then Undefined else Value (a mod b).

(** [v[i]] read through [std::vector::operator[]]. *)
Definition vec_get {A : Type} (v : list A) (i : Z) : outcome A :=
  if (0 <=? i) && (i <? Z.of_nat (length v)) then
    match v !! Z.to_nat i with
    | Some x => Value x
    | None => Undefined
    end
  else Undefined.

(** [v[i] = x]. *)
Definition vec_set {A : Type} (v : list A) (i : Z) (x : A) : outcome (list A) :=
  if (0 <=? i) && (i <? Z.of_nat (length v)) then
    Value (<[Z.to_nat i := x]> v)
  else Undefined.

(** ** Signals of the request/ready handshake (the ports of both modules) *)

Record Request : Type := mkRequest {
  read : bool;
  write : bool;
  address : Z;
  w_data : Z
}.

(** The output signals after one pass of the thread, and the simulated time
    the pass spent in [wait(latency, SC_NS)]. An [sc_out] that is not written
    during the pass keeps the value it had. *)
Record Response : Type := mkResponse {
  r_data : Z;
  ready : bool;
  waited : Z
}.

Definition read_req (a : Z) : Request :=
  {| read := true; write := false; address := a; w_data := 0 |}.

Definition write_req (a v : Z) : Request :=
  {| read := false; write := true; address := a; w_data := v |}.

(** ** Module Memory *)

Module Memory.

Definition page_size : Z := 4 * 1024.
Definition page_num : Z := 1024 * 1024.

(** [std::vector<std::vector<uint8_t>> memory], [page_num] pages of
    [page_size] bytes, all zero after construction. The 4 GiB are kept
    sparse: the map holds the cells that were written, a cell that is in
    bounds and absent from the map holds its initial 0. *)
Record t : Type := mk {
  memory : gmap (Z * Z) Z
}.

(** [Memory::Memory]. *)
Definition init : t := {| memory := ∅ |}.

Definition in_bounds (page position : Z) : bool :=
  (0 <=? page) && (page <? page_num) && (0 <=? position) && (position <? page_size).

(** [memory[page][position]]. *)
Definition cell_get (m : t) (page position : Z) : outcome Z :=
  if in_bounds page position then
    Value (default 0 (memory m !! (page, position)))
  else Undefined.

(** [memory[page][position] = b]. *)
Definition cell_set (m : t) (page position b : Z) : outcome t :=
  if in_bounds page position then
    Value {| memory := <[(page, position) := b]> (memory m) |}
  else Undefined.

(** [for (int i = 3; i >= 0; i--) data = (data << 8) | memory[page][position + i];]
    with [steps] the values [i] takes, in order. *)
Fixpoint read_loop (m : t) (page position : Z) (steps : list Z) (data : Z) : outcome Z :=
  match steps with
  | [] => Value data
  | i :: rest =>
      let* b := cell_get m page (position + i) in
      read_loop m page position rest (Z.lor (wrap32 (Z.shiftl data 8)) b)
  end.

(** [for (int i = 0; i < 4; i++) { memory[page][position + i] = data & 0xFF; data >>= 8; }] *)
Fixpoint write_loop (m : t) (page position : Z) (steps : list Z) (data : Z) : outcome t :=
  match steps with
  | [] => Value m
  | i :: rest =>
      let* m' := cell_set m page (position + i) (Z.land data 255) in
      write_loop m' page position rest (Z.shiftr data 8)
  end.

(** One pass of [Memory::process_memory]; [r_prev] is the value the
    [r_data] signal holds when the pass starts. *)
Definition process_memory (m : t) (r_prev : Z) (q : Request) : outcome (t * Response) :=
  let addr := address q in
  let* page := udiv addr page_size in
  let* position := umod addr page_size in
  let data := 0 in
  if read q && write q then
    (* "Simultaneous read and write detected!" *)
    Value (m, {| r_data := r_prev; ready := true; waited := 0 |})
  else if read q then
    let* data := read_loop m page position [3; 2; 1; 0] data in
    Value (m, {| r_data := data; ready := true; waited := 0 |})
  else if write q then
    let* m' := write_loop m page position [0; 1; 2; 3] (w_data q) in
    Value (m', {| r_data := r_prev; ready := true; waited := 0 |})
  else
    Value (m, {| r_data := r_prev; ready := true; waited := 0 |}).

(** The word a read request for [a] puts on [r_data]. *)
Definition load (m : t) (a : Z) : outcome Z :=
  let* o := process_memory m 0 (read_req a) in
  Value (r_data (snd o)).

(** The store after a write request of [v] at [a]. *)
Definition store (m : t) (a v : Z) : outcome t :=
  let* o := process_memory m 0 (write_req a v) in
  Value (fst o).

End Memory.

(** ** Module Cache *)

Record CacheLine : Type := mkLine {
  valid : bool;
  tag : Z;
  data : list Z
}.

Record Cache : Type := mkCache {
  caches : list (list CacheLine);
  cache_sizes : list Z;
  line_sizes : list Z;
  latencies : list Z;
  levels : Z
}.

(** [caches[i].resize(num_lines, {false, 0, std::vector<uint8_t>(line_sizes[i], 0)})]
    with [num_lines = cache_sizes[i] / line_sizes[i]]. *)
Definition fresh_level (cache_size line_size : Z) : list CacheLine :=
  replicate (Z.to_nat (cache_size / line_size))
            {| valid := false; tag := 0; data := replicate (Z.to_nat line_size) 0 |}.

(** The constructor's loop, for a given configuration. *)
Definition configure (sizes lsizes lats : list Z) (n : Z) : Cache :=
  {| caches := zip_with fresh_level (take (Z.to_nat n) sizes) (take (Z.to_nat n) lsizes);
     cache_sizes := sizes;
     line_sizes := lsizes;
     latencies := lats;
     levels := n |}.

(** [Cache::Cache]: two levels, 1024 and 2048 bytes, 64-byte lines,
    latencies 1 and 3. *)
Definition Cache_new : Cache := configure [1024; 2048] [64; 64] [1; 3] 2.

(** The values [level] takes in [for (uint8_t level = 0; level < levels; level++)]. *)
Definition level_range (c : Cache) : list Z := seqZ 0 (levels c).

(** [for (int i = 0; i < 4; i++) data = (data << 8) | line.data[offset + i];] *)
Fixpoint load_bytes (bytes : list Z) (offset : Z) (steps : list Z) (word : Z) : outcome Z :=
  match steps with
  | [] => Value word
  | i :: rest =>
      let* b := vec_get bytes (wrap32 (offset + i)) in
      load_bytes bytes offset rest (Z.lor (wrap32 (Z.shiftl word 8)) b)
  end.

(** [for (int i = 3; i >= 0; i--) { line.data[offset + i] = data & 0xFF; data >>= 8; }] *)
Fixpoint store_bytes (bytes : list Z) (offset : Z) (steps : list Z) (word : Z) : outcome (list Z) :=
  match steps with
  | [] => Value bytes
  | i :: rest =>
      let* bytes' := vec_set bytes (wrap32 (offset + i)) (Z.land word 255) in
      store_bytes bytes' offset rest (Z.shiftr word 8)
  end.

(** The address decomposition both functions start with. *)
Record Slot : Type := mkSlot {
  slot_tag : Z;
  slot_index : Z;
  slot_offset : Z
}.

Definition decompose (c : Cache) (level addr : Z) : outcome Slot :=
  let* ls := vec_get (line_sizes c) level in
  let* lv := vec_get (caches c) level in
  let* t := udiv addr ls in
  let* block := udiv addr ls in
  let* index := umod block (Z.of_nat (length lv)) in
  let* offset := umod addr ls in
  Value {| slot_tag := t; slot_index := wrap32 index; slot_offset := offset |}.

(** [Cache::search_cache]: the returned pair is the [bool] result and the
    content of the reference parameter [data] on return. *)
Definition search_cache (c : Cache) (level addr word : Z) : outcome (bool * Z) :=
  let* s := decompose c level addr in
  let* lv := vec_get (caches c) level in
  let* line := vec_get lv (slot_index s) in
  if valid line && (tag line =? slot_tag s) then
    let* word' := load_bytes (data line) (slot_offset s) [0; 1; 2; 3] 0 in
    Value (true, word')
  else Value (false, word).

(** [Cache::update_cache]. The line is a reference into [caches[level]]:
    the stores go to the cache itself. *)
Definition update_cache (c : Cache) (level addr word : Z) : outcome Cache :=
  let* s := decompose c level addr in
  let* lv := vec_get (caches c) level in
  let* line := vec_get lv (slot_index s) in
  let line_valid := true in
  let line_tag := slot_tag s in
  let* bytes := store_bytes (data line) (slot_offset s) [3; 2; 1; 0] word in
  let line' := {| valid := line_valid; tag := line_tag; data := bytes |} in
  let* lv' := vec_set lv (slot_index s) line' in
  let* cs' := vec_set (caches c) level lv' in
  Value {| caches := cs';
           cache_sizes := cache_sizes c;
           line_sizes := line_sizes c;
           latencies := latencies c;
           levels := levels c |}.

(** The cascade of [process_cache]: the first level that hits, if any, and
    the word it read. *)
Fixpoint search_levels (c : Cache) (lvls : list Z) (addr word : Z) : outcome (option Z * Z) :=
  match lvls with
  | [] => Value (None, word)
  | level :: rest =>
      let* r := search_cache c level addr word in
      if fst r then Value (Some level, snd r)
      else search_levels c rest addr (snd r)
  end.

(** [for (level ...) update_cache(level, addr, data);] *)
Fixpoint update_levels (c : Cache) (lvls : list Z) (addr word : Z) : outcome Cache :=
  match lvls with
  | [] => Value c
  | level :: rest =>
      let* c' := update_cache c level addr word in
      update_levels c' rest addr word
  end.

(** The word a miss puts on [r_data]. *)
Definition miss_word : Z := 0xDEADBEEF.

(** One pass of [Cache::process_cache]. *)
Definition process_cache (c : Cache) (r_prev : Z) (q : Request) : outcome (Cache * Response) :=
  let addr := address q in
  let word := 0 in
  if read q then
    let* r := search_levels c (level_range c) addr word in
    match fst r with
    | Some level =>
        let* lat := vec_get (latencies c) level in
        Value (c, {| r_data := snd r; ready := true; waited := lat |})
    | None =>
        let word := miss_word in
        let* c' := update_levels c (level_range c) addr word in
        Value (c', {| r_data := word; ready := true; waited := 0 |})
    end
  else if write q then
    let data_to_write := w_data q in
    let* c' := update_levels c (level_range c) addr data_to_write in
    Value (c', {| r_data := r_prev; ready := true; waited := 0 |})
  else
    Value (c, {| r_data := r_prev; ready := false; waited := 0 |}).

(** ** The structural invariant and the well-formed configurations *)

Definition line_okb (line_size : Z) (l : CacheLine) : bool :=
  Z.of_nat (length (data l)) =? line_size.

(** Level [level] has [cache_sizes[level] / line_sizes[level]] lines, each
    with a data array of [line_sizes[level]] bytes. *)
Definition level_shape_okb (c : Cache) (level : Z) : bool :=
  match caches c !! Z.to_nat level,
        cache_sizes c !! Z.to_nat level,
        line_sizes c !! Z.to_nat level with
  | Some lv, Some cs, Some ls =>
      (Z.of_nat (length lv) =? cs / ls) && forallb (line_okb ls) lv
  | _, _, _ => false
  end.

Definition structure_okb (c : Cache) : bool :=
  (Z.of_nat (length (caches c)) =? levels c)
  && forallb (level_shape_okb c) (level_range c).

(** What the code takes for granted of a configuration: a line size that
    is a non-zero [uint32_t], at least one line, a latency for the level. *)
Definition level_config_okb (c : Cache) (level : Z) : bool :=
  match caches c !! Z.to_nat level,
        line_sizes c !! Z.to_nat level,
        latencies c !! Z.to_nat level with
  | Some lv, Some ls, Some _ =>
      (0 <? ls) && (ls <? 2 ^ 32) && (0 <? Z.of_nat (length lv))
  | _, _, _ => false
  end.

(** [levels] is a [uint8_t]; there is a level 0. *)
Definition wfb (c : Cache) : bool :=
  (0 <? levels c) && (levels c <? 256)
  && structure_okb c
  && forallb (level_config_okb c) (level_range c).

(** The 4-byte access at [addr] stays inside the line at [level]:
    [offset + 4 <= line_size]. *)
Definition fits_lineb (c : Cache) (addr level : Z) : bool :=
  match line_sizes c !! Z.to_nat level with
  | Some ls => addr mod ls + 4 <=? ls
  | None => false
  end.

Definition within_lineb (c : Cache) (addr : Z) : bool :=
  forallb (fits_lineb c addr) (level_range c).

(** ** The cache in front of a store

    [class Cache] has the ports [clk], [read], [write], [address], [w_data],
    [r_data] and [ready] and no port or member that reaches a [Memory]:
    a pass of [process_cache] is a function of the cache alone, and the
    store of a system that holds both modules is what it was. *)
Record System : Type := mkSystem {
  sys_cache : Cache;
  sys_store : Memory.t
}.

Definition cache_pass (s : System) (r_prev : Z) (q : Request) : outcome (System * Response) :=
  let* o := process_cache (sys_cache s) r_prev q in
  Value ({| sys_cache := fst o; sys_store := sys_store s |}, snd o).

Definition System_new : System :=
  {| sys_cache := Cache_new; sys_store := Memory.init |}.

(** ** The threads over successive clock edges

    The body of [while (true) { wait(); ... }] runs once per rising edge;
    [qs] are the input signals sampled at the successive edges. The
    [r_data] signal carries over from one pass to the next. *)

Fixpoint run_cache (c : Cache) (r_prev : Z) (qs : list Request) : outcome (Cache * list Response) :=
  match qs with
  | [] => Value (c, [])
  | q :: rest =>
      let* o := process_cache c r_prev q in
      let* o' := run_cache (fst o) (r_data (snd o)) rest in
      Value (fst o', snd o :: snd o')
  end.

Fixpoint run_memory (m : Memory.t) (r_prev : Z) (qs : list Request) : outcome (Memory.t * list Response) :=
  match qs with
  | [] => Value (m, [])
  | q :: rest =>
      let* o := Memory.process_memory m r_prev q in
      let* o' := run_memory (fst o) (r_data (snd o)) rest in
      Value (fst o', snd o :: snd o')
  end.

(** The byte [memory[page][position]] of a cell inside the store. *)
Definition cell (m : Memory.t) (page position : Z) : Z :=
  default 0 (Memory.memory m !! (page, position)).

(** * Properties *)

(** ** Bytes and words *)

Lemma lor_shift_byte x b :
  0 <= x -> 0 <= b < 256 -> Z.lor (Z.shiftl x 8) b = x * 256 + b.
Proof.
  intros Hx Hb. rewrite Z.shiftl_mul_pow2 by lia. change (2 ^ 8) with 256.
  rewrite <- Z.add_nocarry_lor; [lia|].
  apply Z.bits_inj'. intros n Hn. rewrite Z.land_spec, Z.bits_0.
  destruct (Z.lt_ge_cases n 8).
  - replace (x * 256) with (x * 2 ^ 8) by lia.
    rewrite Z.mul_pow2_bits_low by lia. reflexivity.
  - replace (Z.testbit b n) with false; [apply andb_false_r|].
    symmetry. destruct (Z.eq_dec b 0) as [->|]; [apply Z.bits_0|].
    apply Z.bits_above_log2; [lia|].
    assert (Z.log2 b < 8); [|lia]. apply Z.log2_lt_pow2; lia.
Qed.

Lemma wrap32_shift_byte x : 0 <= x < 2 ^ 24 -> wrap32 (Z.shiftl x 8) = Z.shiftl x 8.
Proof.
  intros Hx. unfold wrap32. rewrite Z.shiftl_mul_pow2 by lia.
  apply Z.mod_small. lia.
Qed.

(** The four bytes [update_cache] stores, joined the way [search_cache]
    joins them, are the word. *)
Lemma join_split_word w :
  is_u32 w ->
  let b0 := Z.land w 255 in
  let b1 := Z.land (Z.shiftr w 8) 255 in
  let b2 := Z.land (Z.shiftr (Z.shiftr w 8) 8) 255 in
  let b3 := Z.land (Z.shiftr (Z.shiftr (Z.shiftr w 8) 8) 8) 255 in
  Z.lor (wrap32 (Z.shiftl
    (Z.lor (wrap32 (Z.shiftl
      (Z.lor (wrap32 (Z.shiftl
        (Z.lor (wrap32 (Z.shiftl 0 8)) b3) 8)) b2) 8)) b1) 8)) b0 = w.
Proof.
  intros Hw b0 b1 b2 b3. unfold is_u32 in Hw.
  assert (H255 : forall x, Z.land x 255 = x mod 256).
  { intros x. change 255 with (Z.ones 8). rewrite Z.land_ones by lia. reflexivity. }
  assert (Hs : forall x, Z.shiftr x 8 = x / 256).
  { intros x. rewrite Z.shiftr_div_pow2 by lia. reflexivity. }
  subst b0 b1 b2 b3. rewrite !H255, !Hs.
  set (b0 := w mod 256). set (w1 := w / 256). set (b1 := w1 mod 256).
  set (w2 := w1 / 256). set (b2 := w2 mod 256). set (w3 := w2 / 256).
  set (b3 := w3 mod 256).
  assert (0 <= b0 < 256) by (apply Z.mod_pos_bound; lia).
  assert (0 <= b1 < 256) by (apply Z.mod_pos_bound; lia).
  assert (0 <= b2 < 256) by (apply Z.mod_pos_bound; lia).
  assert (0 <= b3 < 256) by (apply Z.mod_pos_bound; lia).
  assert (w = w1 * 256 + b0) by (subst w1 b0; pose proof (Z.div_mod w 256); lia).
  assert (w1 = w2 * 256 + b1) by (subst w2 b1; pose proof (Z.div_mod w1 256); lia).
  assert (w2 = w3 * 256 + b2) by (subst w3 b2; pose proof (Z.div_mod w2 256); lia).
  assert (w3 = b3) by (subst b3; symmetry; apply Z.mod_small; lia).
  change (Z.shiftl 0 8) with 0. change (wrap32 0) with 0. rewrite Z.lor_0_l.
  rewrite (wrap32_shift_byte b3) by lia. rewrite lor_shift_byte by lia.
  rewrite (wrap32_shift_byte (b3 * 256 + b2)) by lia. rewrite lor_shift_byte by lia.
  rewrite (wrap32_shift_byte ((b3 * 256 + b2) * 256 + b1)) by lia.
  rewrite lor_shift_byte by lia. lia.
Qed.

(** ** Vector accesses *)

Section Vectors.
Context {A : Type}.
Implicit Types (v : list A) (i : Z) (x : A).

Lemma vec_get_in v i x :
  0 <= i -> v !! Z.to_nat i = Some x -> vec_get v i = Value x.
Proof.
  intros Hi Hx. unfold vec_get. rewrite Hx.
  apply lookup_lt_Some in Hx.
  replace (0 <=? i) with true by (symmetry; apply Z.leb_le; lia).
  replace (i <? Z.of_nat (length v)) with true by (symmetry; apply Z.ltb_lt; lia).
  reflexivity.
Qed.

Lemma vec_get_inv v i x :
  vec_get v i = Value x -> 0 <= i < Z.of_nat (length v) /\ v !! Z.to_nat i = Some x.
Proof.
  unfold vec_get. destruct (0 <=? i) eqn:H0; [|discriminate].
  destruct (i <? Z.of_nat (length v)) eqn:H1; [|discriminate]. simpl.
  apply Z.leb_le in H0. apply Z.ltb_lt in H1.
  destruct (v !! Z.to_nat i); [|discriminate].
  intros [= ->]. auto.
Qed.

Lemma vec_get_out v i : Z.of_nat (length v) <= i -> vec_get v i = Undefined.
Proof.
  intros Hi. unfold vec_get.
  replace (i <? Z.of_nat (length v)) with false by (symmetry; apply Z.ltb_ge; lia).
  rewrite andb_false_r. reflexivity.
Qed.

Lemma vec_set_in v i x :
  0 <= i < Z.of_nat (length v) -> vec_set v i x = Value (<[Z.to_nat i := x]> v).
Proof.
  intros Hi. unfold vec_set.
  replace (0 <=? i) with true by (symmetry; apply Z.leb_le; lia).
  replace (i <? Z.of_nat (length v)) with true by (symmetry; apply Z.ltb_lt; lia).
  reflexivity.
Qed.

Lemma vec_set_inv v i x v' :
  vec_set v i x = Value v' ->
  0 <= i < Z.of_nat (length v) /\ v' = <[Z.to_nat i := x]> v.
Proof.
  unfold vec_set. destruct (0 <=? i) eqn:H0; [|discriminate].
  destruct (i <? Z.of_nat (length v)) eqn:H1; [|discriminate]. simpl.
  apply Z.leb_le in H0. apply Z.ltb_lt in H1.
  intros [= <-]. auto.
Qed.

Lemma vec_set_out v i x : Z.of_nat (length v) <= i -> vec_set v i x = Undefined.
Proof.
  intros Hi. unfold vec_set.
  replace (i <? Z.of_nat (length v)) with false by (symmetry; apply Z.ltb_ge; lia).
  rewrite andb_false_r. reflexivity.
Qed.
End Vectors.

Lemma vec_get_none {A : Type} (v : list A) (i : Z) :
  v !! Z.to_nat i = None -> vec_get v i = Undefined.
Proof.
  intros Hn. unfold vec_get. rewrite Hn.
  destruct ((0 <=? i) && (i <? Z.of_nat (length v))); reflexivity.
Qed.

Lemma vec_get_neg {A : Type} (v : list A) (i : Z) :
  i < 0 -> vec_get v i = Undefined.
Proof.
  intros Hi. unfold vec_get.
  replace (0 <=? i) with false by (symmetry; apply Z.leb_gt; lia).
  reflexivity.
Qed.

(** A vector read sees the one cell it reads. *)
Lemma vec_get_ext {A : Type} (v v' : list A) (i : Z) :
  v !! Z.to_nat i = v' !! Z.to_nat i -> vec_get v i = vec_get v' i.
Proof.
  intros Heq. destruct (Z.lt_ge_cases i 0) as [Hi|Hi].
  - rewrite !vec_get_neg by lia. reflexivity.
  - destruct (v !! Z.to_nat i) as [x|] eqn:Hx.
    + rewrite (vec_get_in v i x), (vec_get_in v' i x); auto.
    + rewrite !vec_get_none; auto.
Qed.

(** ** The byte loops of [update_cache] and [search_cache] *)

Lemma store_bytes_length steps :
  forall bs off w bs',
    store_bytes bs off steps w = Value bs' -> length bs' = length bs.
Proof.
  induction steps as [|i steps IH]; simpl; intros bs off w bs' H.
  - injection H as <-. reflexivity.
  - destruct (vec_set bs (wrap32 (off + i)) (Z.land w 255)) as [bs1|] eqn:E;
      simpl in H; [|discriminate].
    apply vec_set_inv in E as [_ ->].
    apply IH in H. rewrite H. apply length_insert.
Qed.

Lemma wrap32_small z : 0 <= z < 2 ^ 32 -> wrap32 z = z.
Proof. intros Hz. unfold wrap32. apply Z.mod_small. lia. Qed.

(** The split of [update_cache] followed by the join of [search_cache]. *)
Lemma store_load_bytes bs off w :
  0 <= off -> off + 4 <= Z.of_nat (length bs) -> Z.of_nat (length bs) < 2 ^ 32 ->
  exists bs',
    store_bytes bs off [3; 2; 1; 0] w = Value bs'
    /\ length bs' = length bs
    /\ (is_u32 w -> load_bytes bs' off [0; 1; 2; 3] 0 = Value w).
Proof.
  intros H0 H4 Hlen.
  assert (Hwrap : forall i, 0 <= i < 4 -> wrap32 (off + i) = off + i).
  { intros i Hi. apply wrap32_small. lia. }
  cbn [store_bytes]. rewrite !Hwrap by lia.
  repeat (rewrite vec_set_in by (rewrite ?length_insert; lia); cbn [obind]).
  eexists. split; [reflexivity|]. split; [rewrite !length_insert; reflexivity|].
  intros Hw. cbn [load_bytes]. rewrite !Hwrap by lia.
  repeat (erewrite vec_get_in;
    [ cbn [obind]
    | lia
    | rewrite ?list_lookup_insert_ne by lia;
      apply list_lookup_insert_eq; rewrite ?length_insert; lia ]).
  f_equal. apply join_split_word. exact Hw.
Qed.

(** A 4-byte store that starts in the line and crosses its end leaves the
    vector. *)
Lemma store_bytes_out bs off w :
  0 <= off -> Z.of_nat (length bs) < off + 4 -> off + 4 <= 2 ^ 32 ->
  store_bytes bs off [3; 2; 1; 0] w = Undefined.
Proof.
  intros H0 Hout Hmax. cbn [store_bytes].
  rewrite (wrap32_small (off + 3)) by lia.
  rewrite vec_set_out by lia. reflexivity.
Qed.

(** ** Address decomposition *)

Lemma decompose_inv c level a s :
  decompose c level a = Value s ->
  exists ls lv,
    0 <= level
    /\ line_sizes c !! Z.to_nat level = Some ls
    /\ caches c !! Z.to_nat level = Some lv
    /\ ls <> 0 /\ Z.of_nat (length lv) <> 0
    /\ s = {| slot_tag := a / ls;
              slot_index := wrap32 ((a / ls) mod Z.of_nat (length lv));
              slot_offset := a mod ls |}.
Proof.
  unfold decompose. intros H.
  destruct (vec_get (line_sizes c) level) as [ls|] eqn:Els; cbn [obind] in H; [|discriminate].
  destruct (vec_get (caches c) level) as [lv|] eqn:Elv; cbn [obind] in H; [|discriminate].
  apply vec_get_inv in Els as [Hl Els]. apply vec_get_inv in Elv as [_ Elv].
  unfold udiv, umod in H.
  destruct (ls =? 0) eqn:Hls; cbn [obind] in H; [discriminate|].
  destruct (Z.of_nat (length lv) =? 0) eqn:Hn; cbn [obind] in H; [discriminate|].
  apply Z.eqb_neq in Hls, Hn. injection H as <-.
  exists ls, lv. repeat split; auto; lia.
Qed.

Lemma decompose_in c level a ls lv :
  0 <= level ->
  line_sizes c !! Z.to_nat level = Some ls ->
  caches c !! Z.to_nat level = Some lv ->
  ls <> 0 -> Z.of_nat (length lv) <> 0 ->
  decompose c level a
  = Value {| slot_tag := a / ls;
             slot_index := wrap32 ((a / ls) mod Z.of_nat (length lv));
             slot_offset := a mod ls |}.
Proof.
  intros Hl Els Elv Hls Hn. unfold decompose.
  rewrite (vec_get_in _ _ _ Hl Els), (vec_get_in _ _ _ Hl Elv). cbn [obind].
  unfold udiv, umod.
  apply Z.eqb_neq in Hls, Hn. rewrite Hls, Hn. reflexivity.
Qed.

(** ** What [update_cache] does to the state *)

Lemma update_cache_inv c level a w c' :
  update_cache c level a w = Value c' ->
  exists ls lv line bytes,
    let index := wrap32 ((a / ls) mod Z.of_nat (length lv)) in
    0 <= level
    /\ line_sizes c !! Z.to_nat level = Some ls
    /\ caches c !! Z.to_nat level = Some lv
    /\ ls <> 0 /\ Z.of_nat (length lv) <> 0
    /\ 0 <= index
    /\ lv !! Z.to_nat index = Some line
    /\ store_bytes (data line) (a mod ls) [3; 2; 1; 0] w = Value bytes
    /\ c' = {| caches := <[Z.to_nat level :=
                            <[Z.to_nat index :=
                               {| valid := true; tag := a / ls; data := bytes |}]> lv]>
                         (caches c);
               cache_sizes := cache_sizes c;
               line_sizes := line_sizes c;
               latencies := latencies c;
               levels := levels c |}.
Proof.
  unfold update_cache. intros H.
  destruct (decompose c level a) as [s|] eqn:Es; cbn [obind] in H; [|discriminate].
  apply decompose_inv in Es as (ls & lv & Hl & Els & Elv & Hls & Hn & ->).
  rewrite (vec_get_in _ _ _ Hl Elv) in H. cbn [obind slot_index slot_tag slot_offset] in H.
  destruct (vec_get lv _) as [line|] eqn:Eline; cbn [obind] in H; [|discriminate].
  destruct (store_bytes _ _ _ _) as [bytes|] eqn:Eb; cbn [obind] in H; [|discriminate].
  apply vec_get_inv in Eline as [Hidx Eline].
  rewrite vec_set_in in H by lia. cbn [obind] in H.
  rewrite vec_set_in in H by (apply lookup_lt_Some in Elv; lia). cbn [obind] in H.
  injection H as <-.
  exists ls, lv, line, bytes. cbv zeta. repeat split; auto; lia.
Qed.

Lemma update_cache_in c level a w ls lv line bytes :
  let index := wrap32 ((a / ls) mod Z.of_nat (length lv)) in
  0 <= level ->
  line_sizes c !! Z.to_nat level = Some ls ->
  caches c !! Z.to_nat level = Some lv ->
  ls <> 0 -> Z.of_nat (length lv) <> 0 ->
  0 <= index ->
  lv !! Z.to_nat index = Some line ->
  store_bytes (data line) (a mod ls) [3; 2; 1; 0] w = Value bytes ->
  update_cache c level a w
  = Value {| caches := <[Z.to_nat level :=
                          <[Z.to_nat index :=
                             {| valid := true; tag := a / ls; data := bytes |}]> lv]>
                       (caches c);
             cache_sizes := cache_sizes c;
             line_sizes := line_sizes c;
             latencies := latencies c;
             levels := levels c |}.
Proof.
  intros index Hl Els Elv Hls Hn Hidx Eline Eb. unfold update_cache.
  rewrite (decompose_in c level a ls lv) by assumption. cbn [obind].
  rewrite (vec_get_in _ _ _ Hl Elv). cbn [obind slot_index slot_tag slot_offset].
  fold index. rewrite (vec_get_in _ _ _ Hidx Eline). cbn [obind].
  rewrite Eb. cbn [obind].
  pose proof (lookup_lt_Some _ _ _ Eline). pose proof (lookup_lt_Some _ _ _ Elv).
  rewrite vec_set_in by lia. cbn [obind].
  rewrite vec_set_in by lia. reflexivity.
Qed.

(** ** Reading the boolean invariants *)

Lemma forallb_Forall_true {A : Type} (f : A -> bool) (l : list A) :
  forallb f l = true <-> Forall (fun x => f x = true) l.
Proof.
  induction l as [|x l IH]; simpl.
  - split; auto.
  - rewrite andb_true_iff, IH. split.
    + intros [Hx Hl]. constructor; auto.
    + intros H. inversion H; subst. auto.
Qed.

Lemma forallb_level_range (f : Z -> bool) (c : Cache) :
  forallb f (level_range c) = true <->
  (forall level, 0 <= level < levels c -> f level = true).
Proof.
  rewrite forallb_Forall_true, Forall_forall. unfold level_range.
  split; intros H level Hl.
  - apply H. apply elem_of_seqZ. lia.
  - apply H. apply elem_of_seqZ in Hl. lia.
Qed.

Definition line_ok (ls : Z) (l : CacheLine) : Prop :=
  Z.of_nat (length (data l)) = ls.

Lemma level_shape_okb_iff c level :
  level_shape_okb c level = true <->
  exists lv cs ls,
    caches c !! Z.to_nat level = Some lv
    /\ cache_sizes c !! Z.to_nat level = Some cs
    /\ line_sizes c !! Z.to_nat level = Some ls
    /\ Z.of_nat (length lv) = cs / ls
    /\ Forall (line_ok ls) lv.
Proof.
  unfold level_shape_okb. split.
  - destruct (caches c !! Z.to_nat level) as [lv|]; [|discriminate].
    destruct (cache_sizes c !! Z.to_nat level) as [cs|]; [|discriminate].
    destruct (line_sizes c !! Z.to_nat level) as [ls|]; [|discriminate].
    rewrite andb_true_iff, forallb_Forall_true, Z.eqb_eq. intros [Hn Hl].
    exists lv, cs, ls. repeat split; auto.
    eapply Forall_impl; [exact Hl|]. intros l Hx. apply Z.eqb_eq. exact Hx.
  - intros (lv & cs & ls & -> & -> & -> & Hn & Hl).
    rewrite andb_true_iff, forallb_Forall_true, Z.eqb_eq. split; auto.
    eapply Forall_impl; [exact Hl|]. intros l Hx. apply Z.eqb_eq. exact Hx.
Qed.

Lemma wfb_structure c : wfb c = true -> structure_okb c = true.
Proof. unfold wfb. rewrite !andb_true_iff. tauto. Qed.

Lemma wfb_levels c : wfb c = true -> 0 < levels c < 256.
Proof. unfold wfb. rewrite !andb_true_iff, !Z.ltb_lt. tauto. Qed.

(** Everything the invariants say of one level. *)
Lemma wfb_level c level :
  wfb c = true -> 0 <= level < levels c ->
  exists lv cs ls lat,
    caches c !! Z.to_nat level = Some lv
    /\ cache_sizes c !! Z.to_nat level = Some cs
    /\ line_sizes c !! Z.to_nat level = Some ls
    /\ latencies c !! Z.to_nat level = Some lat
    /\ 0 < ls < 2 ^ 32
    /\ 0 < Z.of_nat (length lv)
    /\ Z.of_nat (length lv) = cs / ls
    /\ Forall (line_ok ls) lv.
Proof.
  unfold wfb, structure_okb. rewrite !andb_true_iff, !forallb_level_range.
  intros [[_ [_ Hs]] Hc] Hl.
  specialize (Hs level Hl). specialize (Hc level Hl).
  apply level_shape_okb_iff in Hs as (lv & cs & ls & Elv & Ecs & Els & Hn & Hlines).
  unfold level_config_okb in Hc. rewrite Elv, Els in Hc.
  destruct (latencies c !! Z.to_nat level) as [lat|]; [|discriminate].
  rewrite !andb_true_iff, !Z.ltb_lt in Hc.
  exists lv, cs, ls, lat. repeat split; auto; lia.
Qed.

Lemma wrap32_range x : 0 <= x -> 0 <= wrap32 x <= x.
Proof.
  intros Hx. unfold wrap32. split.
  - apply Z.mod_pos_bound. lia.
  - apply Z.mod_le; lia.
Qed.

(** The index the code computes is a line of the level. *)
Lemma index_in_level (block n : Z) :
  0 < n -> 0 <= wrap32 (block mod n) < n.
Proof.
  intros Hn. pose proof (Z.mod_pos_bound block n Hn).
  pose proof (wrap32_range (block mod n)). lia.
Qed.

(** ** [search_cache] *)

Lemma search_cache_eq c level a d ls lv line :
  let index := wrap32 ((a / ls) mod Z.of_nat (length lv)) in
  0 <= level ->
  line_sizes c !! Z.to_nat level = Some ls ->
  caches c !! Z.to_nat level = Some lv ->
  ls <> 0 -> Z.of_nat (length lv) <> 0 ->
  0 <= index ->
  lv !! Z.to_nat index = Some line ->
  search_cache c level a d
  = if valid line && (tag line =? a / ls) then
      let* w := load_bytes (data line) (a mod ls) [0; 1; 2; 3] 0 in
      Value (true, w)
    else Value (false, d).
Proof.
  intros index Hl Els Elv Hls Hn Hidx Eline. unfold search_cache.
  rewrite (decompose_in c level a ls lv) by assumption. cbn [obind].
  rewrite (vec_get_in _ _ _ Hl Elv). cbn [obind slot_index slot_tag slot_offset].
  fold index. rewrite (vec_get_in _ _ _ Hidx Eline). reflexivity.
Qed.

(** A lookup sees the line sizes and the one level it searches. *)
Lemma search_cache_ext c c' level a d :
  line_sizes c = line_sizes c' ->
  caches c !! Z.to_nat level = caches c' !! Z.to_nat level ->
  search_cache c level a d = search_cache c' level a d.
Proof.
  intros Hls Hlv.
  assert (Hg : vec_get (caches c) level = vec_get (caches c') level)
    by (apply vec_get_ext; exact Hlv).
  unfold search_cache, decompose. rewrite Hls, Hg. reflexivity.
Qed.

(** ** [update_cache]: frame, invariant, read-back *)

Lemma update_cache_config c level a w c' :
  update_cache c level a w = Value c' ->
  cache_sizes c' = cache_sizes c /\ line_sizes c' = line_sizes c
  /\ latencies c' = latencies c /\ levels c' = levels c
  /\ length (caches c') = length (caches c).
Proof.
  intros H. apply update_cache_inv in H
    as (ls & lv & line & bytes & _ & _ & _ & _ & _ & _ & _ & _ & ->).
  cbn. rewrite length_insert. auto.
Qed.

(** The other levels are not touched. *)
Lemma update_cache_other c level a w c' (n : nat) :
  update_cache c level a w = Value c' ->
  n <> Z.to_nat level ->
  caches c' !! n = caches c !! n.
Proof.
  intros H Hn. apply update_cache_inv in H
    as (ls & lv & line & bytes & _ & _ & _ & _ & _ & _ & _ & _ & ->).
  cbn. apply list_lookup_insert_ne. auto.
Qed.

Lemma update_cache_level_shape c level a w c' l :
  update_cache c level a w = Value c' ->
  level_shape_okb c l = true -> level_shape_okb c' l = true.
Proof.
  intros H Hok.
  destruct (Nat.eq_dec (Z.to_nat l) (Z.to_nat level)) as [Heq|Hne].
  - apply update_cache_inv in H
      as (ls & lv & line & bytes & Hl & Els & Elv & Hls & Hn & Hidx & Eline & Eb & ->).
    cbv zeta in *.
    apply level_shape_okb_iff in Hok as (lv0 & cs & ls0 & Elv0 & Ecs & Els0 & Hlen & Hlines).
    rewrite Heq in Elv0, Ecs, Els0.
    assert (lv0 = lv) by congruence. assert (ls0 = ls) by congruence. subst lv0 ls0.
    apply level_shape_okb_iff. cbn. rewrite Heq.
    eexists _, cs, ls. split.
    { apply list_lookup_insert_eq. apply lookup_lt_Some in Elv. exact Elv. }
    repeat split; auto.
    + rewrite length_insert. exact Hlen.
    + apply Forall_insert; [exact Hlines|].
      unfold line_ok. cbn. rewrite (store_bytes_length _ _ _ _ _ Eb).
      eapply (proj1 (Forall_lookup _ _) Hlines). exact Eline.
  - pose proof (update_cache_other _ _ _ _ _ (Z.to_nat l) H Hne) as Ho.
    apply update_cache_config in H as (Hcs & Hlsz & _ & _ & _).
    unfold level_shape_okb in *. rewrite Ho, Hcs, Hlsz. exact Hok.
Qed.

Lemma update_cache_structure c level a w c' :
  update_cache c level a w = Value c' ->
  structure_okb c = true -> structure_okb c' = true.
Proof.
  intros H. unfold structure_okb. rewrite !andb_true_iff, !forallb_level_range.
  pose proof (update_cache_config _ _ _ _ _ H) as (_ & _ & _ & Hlv & Hlen).
  rewrite Hlv, Hlen. intros [Hn Hall]. split; [exact Hn|].
  intros l Hl. eapply update_cache_level_shape; eauto.
Qed.

Lemma update_cache_level_config c level a w c' l :
  update_cache c level a w = Value c' ->
  level_config_okb c l = true -> level_config_okb c' l = true.
Proof.
  intros H Hok.
  pose proof (update_cache_config _ _ _ _ _ H) as (_ & Hlsz & Hlat & _ & _).
  destruct (Nat.eq_dec (Z.to_nat l) (Z.to_nat level)) as [Heq|Hne].
  - apply update_cache_inv in H
      as (ls & lv & line & bytes & Hl & Els & Elv & Hls & Hn & Hidx & Eline & Eb & ->).
    unfold level_config_okb in *. cbn in *. rewrite Heq in *.
    rewrite list_lookup_insert_eq by (apply lookup_lt_Some in Elv; exact Elv).
    rewrite Elv in Hok. rewrite length_insert. exact Hok.
  - pose proof (update_cache_other _ _ _ _ _ (Z.to_nat l) H Hne) as Ho.
    unfold level_config_okb in *. rewrite Ho, Hlsz, Hlat. exact Hok.
Qed.

Lemma update_cache_wfb c level a w c' :
  update_cache c level a w = Value c' ->
  wfb c = true -> wfb c' = true.
Proof.
  intros H. unfold wfb. rewrite !andb_true_iff, !forallb_level_range.
  pose proof (update_cache_config _ _ _ _ _ H) as (_ & _ & _ & Hlv & _).
  rewrite Hlv. intros [[Hr Hs] Hc]. repeat split; try tauto.
  - eapply update_cache_structure; eauto.
  - intros l Hl. eapply update_cache_level_config; eauto.
Qed.

Lemma fits_lineb_inv c a level ls :
  line_sizes c !! Z.to_nat level = Some ls ->
  fits_lineb c a level = true -> a mod ls + 4 <= ls.
Proof. unfold fits_lineb. intros ->. apply Z.leb_le. Qed.

(** Inside the line the install is defined, and a lookup of the same address
    at the same level then finds the word. *)
Lemma update_cache_hits c level a w :
  wfb c = true -> 0 <= level < levels c -> fits_lineb c a level = true ->
  exists c',
    update_cache c level a w = Value c'
    /\ (is_u32 w -> forall d, search_cache c' level a d = Value (true, w)).
Proof.
  intros Hwf Hl Hfit.
  destruct (wfb_level c level Hwf Hl)
    as (lv & cs & ls & lat & Elv & Ecs & Els & Elat & Hls & Hn & Hlen & Hlines).
  pose proof (fits_lineb_inv _ _ _ _ Els Hfit) as Hoff.
  pose proof (index_in_level (a / ls) _ Hn) as Hidx.
  set (index := wrap32 ((a / ls) mod Z.of_nat (length lv))) in *.
  destruct (lookup_lt_is_Some_2 lv (Z.to_nat index)) as [line Eline]; [lia|].
  assert (Hline : Z.of_nat (length (data line)) = ls)
    by (eapply (proj1 (Forall_lookup _ _) Hlines); exact Eline).
  pose proof (Z.mod_pos_bound a ls ltac:(lia)) as Hmod.
  destruct (store_load_bytes (data line) (a mod ls) w) as (bytes & Eb & Hblen & Hload);
    [lia..|].
  set (line' := {| valid := true; tag := a / ls; data := bytes |}).
  set (lv' := <[Z.to_nat index := line']> lv).
  eexists. split.
  { apply (update_cache_in c level a w ls lv line bytes); auto; lia. }
  intros Hw d. fold index line' lv'.
  assert (Hlen' : length lv' = length lv) by apply length_insert.
  rewrite (search_cache_eq _ level a d ls lv' line'); cbn [line_sizes caches];
    rewrite ?Hlen'; fold index; auto; try lia.
  - cbn [valid tag data line']. rewrite Z.eqb_refl. cbn [andb].
    rewrite (Hload Hw). reflexivity.
  - apply list_lookup_insert_eq. apply lookup_lt_Some in Elv. exact Elv.
  - apply list_lookup_insert_eq. lia.
Qed.

(** Outside the line the install of a well-formed cache has no defined
    behaviour: the first byte store is past the end of the data array. *)
Lemma update_cache_crossing c level a w ls :
  wfb c = true -> 0 <= level < levels c ->
  line_sizes c !! Z.to_nat level = Some ls ->
  ls + 3 < 2 ^ 32 -> ls < a mod ls + 4 ->
  update_cache c level a w = Undefined.
Proof.
  intros Hwf Hl Els' Hmax Hfit.
  destruct (wfb_level c level Hwf Hl)
    as (lv & cs & ls0 & lat & Elv & Ecs & Els & Elat & Hls & Hn & Hlen & Hlines).
  assert (ls0 = ls) by congruence. subst ls0.
  pose proof (index_in_level (a / ls) _ Hn) as Hidx.
  destruct (lookup_lt_is_Some_2 lv
    (Z.to_nat (wrap32 ((a / ls) mod Z.of_nat (length lv))))) as [line Eline]; [lia|].
  assert (Hline : Z.of_nat (length (data line)) = ls)
    by (eapply (proj1 (Forall_lookup _ _) Hlines); exact Eline).
  pose proof (Z.mod_pos_bound a ls ltac:(lia)) as Hmod.
  unfold update_cache.
  rewrite (decompose_in c level a ls lv) by (auto; lia). cbn [obind].
  rewrite (vec_get_in _ _ _ (proj1 Hl) Elv). cbn [obind slot_index slot_tag slot_offset].
  rewrite (vec_get_in _ _ _ (proj1 Hidx) Eline). cbn [obind].
  rewrite store_bytes_out by lia. reflexivity.
Qed.

(** ** The two loops of [process_cache] *)

Lemma search_cache_miss_word c level a d w :
  search_cache c level a d = Value (false, w) -> w = d.
Proof.
  unfold search_cache.
  destruct (decompose c level a) as [s|]; cbn [obind]; [|discriminate].
  destruct (vec_get (caches c) level) as [lv|]; cbn [obind]; [|discriminate].
  destruct (vec_get lv (slot_index s)) as [line|]; cbn [obind]; [|discriminate].
  destruct (valid line && (tag line =? slot_tag s)).
  - destruct (load_bytes _ _ _ _); cbn [obind]; discriminate.
  - intros [= <-]. reflexivity.
Qed.

Lemma search_levels_all_miss c lvls a d :
  (forall l, l ∈ lvls -> search_cache c l a d = Value (false, d)) ->
  search_levels c lvls a d = Value (None, d).
Proof.
  induction lvls as [|l lvls IH]; intros H; cbn [search_levels]; [reflexivity|].
  rewrite (H l) by (left). cbn [obind fst snd].
  apply IH. intros l' Hl'. apply H. right. exact Hl'.
Qed.

Lemma search_levels_first_hit c pre L post a d w :
  (forall l, l ∈ pre -> search_cache c l a d = Value (false, d)) ->
  search_cache c L a d = Value (true, w) ->
  search_levels c (pre ++ L :: post) a d = Value (Some L, w).
Proof.
  induction pre as [|l pre IH]; intros Hpre HL; cbn [search_levels app].
  - rewrite HL. reflexivity.
  - rewrite (Hpre l) by (left). cbn [obind fst snd].
    apply IH; [|exact HL]. intros l' Hl'. apply Hpre. right. exact Hl'.
Qed.

Lemma level_range_split c L :
  0 <= L < levels c ->
  level_range c = seqZ 0 L ++ L :: seqZ (Z.succ L) (levels c - Z.succ L).
Proof.
  intros HL. unfold level_range.
  replace (levels c) with (L + (levels c - L)) at 1 by lia.
  rewrite seqZ_app by lia. f_equal.
  rewrite seqZ_cons by lia. f_equal. f_equal. lia.
Qed.

(** The install loop over distinct levels of a well-formed cache, inside the
    line at each of them. *)
Lemma update_levels_spec a w lvls :
  NoDup lvls ->
  forall c,
    wfb c = true ->
    (forall l, l ∈ lvls -> 0 <= l < levels c /\ fits_lineb c a l = true) ->
    exists c',
      update_levels c lvls a w = Value c'
      /\ wfb c' = true
      /\ cache_sizes c' = cache_sizes c /\ line_sizes c' = line_sizes c
      /\ latencies c' = latencies c /\ levels c' = levels c
      /\ (forall n : nat, (forall l, l ∈ lvls -> Z.to_nat l <> n) ->
            caches c' !! n = caches c !! n)
      /\ (is_u32 w -> forall l d, l ∈ lvls ->
            search_cache c' l a d = Value (true, w)).
Proof.
  induction 1 as [|l lvls Hnotin Hnd IH]; intros c Hwf Hall; cbn [update_levels].
  - exists c. repeat split; auto. intros _ l d Hl. inversion Hl.
  - destruct (Hall l) as [Hl Hfit]; [left|].
    destruct (update_cache_hits c l a w Hwf Hl Hfit) as (c1 & E1 & Hhit).
    rewrite E1. cbn [obind].
    pose proof (update_cache_config _ _ _ _ _ E1) as (Hcs & Hls & Hlat & Hlv & _).
    destruct (IH c1) as (c' & E' & Hwf' & Hcs' & Hls' & Hlat' & Hlv' & Hframe & Hhits).
    { eapply update_cache_wfb; eauto. }
    { intros l' Hl'. destruct (Hall l') as [Hr Hf]; [right; exact Hl'|].
      split; [rewrite Hlv; exact Hr|].
      unfold fits_lineb in *. rewrite Hls. exact Hf. }
    assert (Hsep : forall l', l' ∈ lvls -> Z.to_nat l' <> Z.to_nat l).
    { intros l' Hl' Heq. destruct (Hall l') as [Hr _]; [right; exact Hl'|].
      assert (l' = l) by lia. subst l'. contradiction. }
    exists c'. split; [exact E'|]. split; [exact Hwf'|].
    repeat split; try congruence.
    + intros n Hn. rewrite Hframe by (intros l' Hl'; apply Hn; right; exact Hl').
      eapply update_cache_other; [exact E1|].
      intros ->. apply (Hn l); [left|reflexivity].
    + intros Hw l' d Hl'. apply elem_of_cons in Hl' as [->|Hl'].
      * rewrite <- (Hhit Hw d). apply search_cache_ext; [exact Hls'|].
        apply Hframe. exact Hsep.
      * apply Hhits; assumption.
Qed.

Lemma within_lineb_level c a level :
  within_lineb c a = true -> 0 <= level < levels c -> fits_lineb c a level = true.
Proof. unfold within_lineb. rewrite forallb_level_range. auto. Qed.

(** The fill and the write-through: every level is installed. *)
Lemma update_all_levels c a w :
  wfb c = true -> within_lineb c a = true ->
  exists c',
    update_levels c (level_range c) a w = Value c'
    /\ wfb c' = true
    /\ line_sizes c' = line_sizes c
    /\ latencies c' = latencies c /\ levels c' = levels c
    /\ (is_u32 w -> forall level d, 0 <= level < levels c ->
          search_cache c' level a d = Value (true, w)).
Proof.
  intros Hwf Hin.
  destruct (update_levels_spec a w (level_range c) (NoDup_seqZ _ _) c Hwf)
    as (c' & E & Hwf' & _ & Hls & Hlat & Hlv & _ & Hhits).
  { intros l Hl. apply elem_of_seqZ in Hl.
    split; [lia|]. apply within_lineb_level; [exact Hin|lia]. }
  exists c'. repeat split; auto.
  intros Hw level d Hl. apply Hhits; [exact Hw|]. apply elem_of_seqZ. lia.
Qed.

Lemma miss_word_u32 : is_u32 miss_word.
Proof. unfold is_u32, miss_word. lia. Qed.

Definition misses_at (c : Cache) (level a : Z) : Prop :=
  search_cache c level a 0 = Value (false, 0).

Definition hits_at (c : Cache) (level a w : Z) : Prop :=
  search_cache c level a 0 = Value (true, w).

Definition misses_everywhere (c : Cache) (a : Z) : Prop :=
  forall level, 0 <= level < levels c -> misses_at c level a.

(** A pass for a read request that no level answers. *)
Lemma read_miss_pass c r q :
  wfb c = true -> read q = true ->
  within_lineb c (address q) = true ->
  misses_everywhere c (address q) ->
  exists c',
    process_cache c r q
    = Value (c', {| r_data := miss_word; ready := true; waited := 0 |})
    /\ wfb c' = true
    /\ latencies c' = latencies c /\ levels c' = levels c
    /\ (forall level d, 0 <= level < levels c ->
          search_cache c' level (address q) d = Value (true, miss_word)).
Proof.
  intros Hwf Hr Hin Hmiss. unfold process_cache. rewrite Hr.
  rewrite search_levels_all_miss.
  2:{ intros l Hl. apply elem_of_seqZ in Hl. apply Hmiss. lia. }
  cbn [obind fst snd].
  destruct (update_all_levels c (address q) miss_word Hwf Hin)
    as (c' & E & Hwf' & _ & Hlat & Hlv & Hhits).
  rewrite E. cbn [obind]. exists c'. repeat split; auto.
  intros level d Hl. apply Hhits; [apply miss_word_u32|exact Hl].
Qed.

(** A pass for a read request that level [L] is the first to answer. *)
Lemma read_hit_pass c r q L w :
  wfb c = true -> read q = true -> 0 <= L < levels c ->
  (forall l, 0 <= l < L -> misses_at c l (address q)) ->
  hits_at c L (address q) w ->
  exists lat,
    latencies c !! Z.to_nat L = Some lat
    /\ process_cache c r q
       = Value (c, {| r_data := w; ready := true; waited := lat |}).
Proof.
  intros Hwf Hr HL Hpre Hhit.
  destruct (wfb_level c L Hwf HL) as (lv & cs & ls & lat & _ & _ & _ & Elat & _).
  exists lat. split; [exact Elat|].
  unfold process_cache. rewrite Hr, (level_range_split c L HL).
  rewrite (search_levels_first_hit c _ L _ _ 0 w).
  - cbn [obind fst snd]. rewrite (vec_get_in _ _ _ (proj1 HL) Elat). reflexivity.
  - intros l Hl. apply elem_of_seqZ in Hl. apply Hpre. lia.
  - exact Hhit.
Qed.

(** A pass for a write request. *)
Lemma write_pass c r q :
  wfb c = true -> read q = false -> write q = true ->
  within_lineb c (address q) = true ->
  exists c',
    process_cache c r q
    = Value (c', {| r_data := r; ready := true; waited := 0 |})
    /\ wfb c' = true
    /\ latencies c' = latencies c /\ levels c' = levels c
    /\ (is_u32 (w_data q) -> forall level d, 0 <= level < levels c ->
          search_cache c' level (address q) d = Value (true, w_data q)).
Proof.
  intros Hwf Hr Hw Hin. unfold process_cache. rewrite Hr, Hw.
  destruct (update_all_levels c (address q) (w_data q) Hwf Hin)
    as (c' & E & Hwf' & _ & Hlat & Hlv & Hhits).
  rewrite E. cbn [obind]. exists c'. repeat split; auto.
Qed.

(** ** The constructed cache *)

Lemma configure_level sizes lsizes lats n (i : nat) lv :
  caches (configure sizes lsizes lats n) !! i = Some lv ->
  exists cs ls, lv = fresh_level cs ls.
Proof.
  cbn [configure caches]. intros H.
  apply lookup_zip_with_Some in H as (cs & ls & -> & _ & _).
  exists cs, ls. reflexivity.
Qed.

Lemma fresh_level_line cs ls (i : nat) line :
  fresh_level cs ls !! i = Some line -> valid line = false.
Proof.
  unfold fresh_level. intros H. apply lookup_replicate_1 in H as [-> _]. reflexivity.
Qed.

(** After construction no level answers any address. *)
Lemma configure_misses sizes lsizes lats n a :
  wfb (configure sizes lsizes lats n) = true ->
  misses_everywhere (configure sizes lsizes lats n) a.
Proof.
  intros Hwf level Hl. unfold misses_at.
  destruct (wfb_level _ level Hwf Hl)
    as (lv & cs & ls & lat & Elv & Ecs & Els & Elat & Hls & Hn & Hlen & Hlines).
  pose proof (index_in_level (a / ls) _ Hn) as Hidx.
  destruct (lookup_lt_is_Some_2 lv
    (Z.to_nat (wrap32 ((a / ls) mod Z.of_nat (length lv))))) as [line Eline]; [lia|].
  rewrite (search_cache_eq _ level a 0 ls lv line); auto; try lia.
  destruct (configure_level _ _ _ _ _ _ Elv) as (cs' & ls' & ->).
  rewrite (fresh_level_line _ _ _ _ Eline). reflexivity.
Qed.

(** ** Conflicts *)

Lemma update_cache_decompose c level' a' w c' level a s :
  update_cache c level' a' w = Value c' ->
  decompose c level a = Value s -> decompose c' level a = Value s.
Proof.
  intros Hu Hd.
  apply decompose_inv in Hd as (ls & lv & Hl & Els & Elv & Hls & Hn & ->).
  pose proof (update_cache_config _ _ _ _ _ Hu) as (_ & Hlsz & _ & _ & _).
  destruct (Nat.eq_dec (Z.to_nat level) (Z.to_nat level')) as [Heq|Hne].
  - apply update_cache_inv in Hu
      as (ls1 & lv1 & line & bytes & _ & _ & Elv1 & _ & _ & _ & _ & _ & ->).
    rewrite <- Heq in Elv1. assert (lv1 = lv) by congruence. subst lv1.
    erewrite decompose_in; [|exact Hl|exact Els| |exact Hls|].
    + rewrite length_insert. reflexivity.
    + cbn [caches]. rewrite Heq. apply list_lookup_insert_eq.
      rewrite <- Heq. apply lookup_lt_Some in Elv. exact Elv.
    + rewrite length_insert. exact Hn.
  - pose proof (update_cache_other _ _ _ _ _ _ Hu Hne) as Ho.
    apply decompose_in; auto; congruence.
Qed.

(** An install takes the slot: an address of another tag that maps to the
    same index no longer hits. *)
Lemma install_evicts c level a2 w2 c2 a1 d s1 s2 :
  update_cache c level a2 w2 = Value c2 ->
  decompose c level a1 = Value s1 ->
  decompose c level a2 = Value s2 ->
  slot_index s1 = slot_index s2 ->
  slot_tag s1 <> slot_tag s2 ->
  search_cache c2 level a1 d = Value (false, d).
Proof.
  intros Hu H1 H2 Hidx Htag.
  apply decompose_inv in H1 as (ls & lv & Hl & Els & Elv & Hls & Hn & ->).
  apply decompose_inv in H2 as (ls' & lv' & _ & Els' & Elv' & _ & _ & ->).
  assert (ls' = ls) by congruence. assert (lv' = lv) by congruence. subst ls' lv'.
  cbn [slot_index slot_tag] in Hidx, Htag.
  apply update_cache_inv in Hu
    as (ls2 & lv2 & line & bytes & _ & Els2 & Elv2 & _ & _ & Hi & Eline & _ & ->).
  assert (ls2 = ls) by congruence. assert (lv2 = lv) by congruence. subst ls2 lv2.
  cbv zeta in *. rewrite <- Hidx in *.
  set (line' := {| valid := true; tag := a2 / ls; data := bytes |}).
  rewrite (search_cache_eq _ level a1 d ls
             (<[Z.to_nat (wrap32 ((a1 / ls) mod Z.of_nat (length lv))) := line']> lv) line');
    cbn [line_sizes caches]; rewrite ?length_insert; auto.
  - cbn [valid tag line']. replace (a2 / ls =? a1 / ls) with false; [reflexivity|].
    symmetry. apply Z.eqb_neq. congruence.
  - apply list_lookup_insert_eq. apply lookup_lt_Some in Elv. exact Elv.
  - apply list_lookup_insert_eq. apply lookup_lt_Some in Eline. exact Eline.
Qed.

(** ** The structural invariant along a pass *)

Lemma update_levels_structure a w lvls :
  forall c c',
    update_levels c lvls a w = Value c' ->
    structure_okb c = true -> structure_okb c' = true.
Proof.
  induction lvls as [|l lvls IH]; cbn [update_levels]; intros c c' H Hok.
  - injection H as <-. exact Hok.
  - destruct (update_cache c l a w) as [c1|] eqn:E1; cbn [obind] in H; [|discriminate].
    eapply IH; [exact H|]. eapply update_cache_structure; eauto.
Qed.

Lemma process_cache_structure c r q c' rsp :
  process_cache c r q = Value (c', rsp) ->
  structure_okb c = true -> structure_okb c' = true.
Proof.
  unfold process_cache. intros H Hok.
  destruct (read q).
  - destruct (search_levels _ _ _ _) as [[[L|] w]|]; cbn [obind fst snd] in H;
      [| |discriminate].
    + destruct (vec_get (latencies c) L); cbn [obind] in H; [|discriminate].
      injection H as <- _. exact Hok.
    + destruct (update_levels _ _ _ _) as [c1|] eqn:E; cbn [obind] in H; [|discriminate].
      injection H as <- _. eapply update_levels_structure; eauto.
  - destruct (write q).
    + destruct (update_levels _ _ _ _) as [c1|] eqn:E; cbn [obind] in H; [|discriminate].
      injection H as <- _. eapply update_levels_structure; eauto.
    + injection H as <- _. exact Hok.
Qed.

(** ** The cache and the store *)

Lemma cache_pass_inv s r q s' rsp :
  cache_pass s r q = Value (s', rsp) ->
  process_cache (sys_cache s) r q = Value (sys_cache s', rsp)
  /\ sys_store s' = sys_store s.
Proof.
  unfold cache_pass.
  destruct (process_cache (sys_cache s) r q) as [[c' rsp']|]; cbn [obind]; [|discriminate].
  intros [= <- <-]. auto.
Qed.

Lemma cache_pass_in s r q c' rsp :
  process_cache (sys_cache s) r q = Value (c', rsp) ->
  cache_pass s r q = Value ({| sys_cache := c'; sys_store := sys_store s |}, rsp).
Proof. unfold cache_pass. intros ->. reflexivity. Qed.

(** With [read] asserted the [write] signal and [w_data] are not looked at. *)
Lemma process_cache_read_first c r q :
  read q = true -> process_cache c r q = process_cache c r (read_req (address q)).
Proof. unfold process_cache. intros ->. reflexivity. Qed.

Lemma update_levels_config a w lvls :
  forall c c',
    update_levels c lvls a w = Value c' ->
    cache_sizes c' = cache_sizes c /\ line_sizes c' = line_sizes c.
Proof.
  induction lvls as [|l lvls IH]; cbn [update_levels]; intros c c' H.
  - injection H as <-. auto.
  - destruct (update_cache c l a w) as [c1|] eqn:E1; cbn [obind] in H; [|discriminate].
    apply update_cache_config in E1 as (Hcs & Hls & _).
    apply IH in H as [Hcs' Hls']. split; congruence.
Qed.

Lemma process_cache_config c r q c' rsp :
  process_cache c r q = Value (c', rsp) ->
  cache_sizes c' = cache_sizes c /\ line_sizes c' = line_sizes c.
Proof.
  unfold process_cache. intros H.
  destruct (read q).
  - destruct (search_levels _ _ _ _) as [[[L|] w]|]; cbn [obind fst snd] in H;
      [| |discriminate].
    + destruct (vec_get (latencies c) L); cbn [obind] in H; [|discriminate].
      injection H as <- _. auto.
    + destruct (update_levels _ _ _ _) as [c1|] eqn:E; cbn [obind] in H; [|discriminate].
      injection H as <- _. eapply update_levels_config; eauto.
  - destruct (write q).
    + destruct (update_levels _ _ _ _) as [c1|] eqn:E; cbn [obind] in H; [|discriminate].
      injection H as <- _. eapply update_levels_config; eauto.
    + injection H as <- _. auto.
Qed.

(** * The claims *)

(** Example states: the constructed cache with address 0 installed at level 1
    only, and the request that asserts [read] and [write] together. *)
Definition level1_only : Cache :=
  match update_cache Cache_new 1 0 0x12345678 with
  | Value c => c
  | Undefined => Cache_new
  end.

Definition both_asserted : Request :=
  {| read := true; write := true; address := 0x1000; w_data := 0x12345678 |}.

(** ** C1: what a full miss returns *)

(** C1, as stated, fails: the store holds 0x87654321 at 0x1000 (written and
    read back through [Memory::process_memory]), the constructed cache misses
    at every level, and the read returns another word. It also fails at
    address 62, which misses at every level as well: the fill crosses the end
    of the line and installs nothing. *)
Lemma read_miss_ignores_store :
  (exists m,
     Memory.store Memory.init 0x1000 0x87654321 = Value m
     /\ Memory.load m 0x1000 = Value 0x87654321
     /\ misses_everywhere Cache_new 0x1000
     /\ exists s' rsp,
          cache_pass {| sys_cache := Cache_new; sys_store := m |} 0 (read_req 0x1000)
          = Value (s', rsp)
          /\ r_data rsp <> 0x87654321)
  /\ misses_everywhere Cache_new 62
  /\ cache_pass System_new 0 (read_req 62) = Undefined.
Proof.
  split.
  - eexists. split; [vm_compute; reflexivity|].
    split; [vm_compute; reflexivity|].
    split; [apply configure_misses; reflexivity|].
    eexists _, _. split; [vm_compute; reflexivity|].
    cbn. discriminate.
  - split; [apply configure_misses; reflexivity|].
    vm_compute. reflexivity.
Qed.

(** C1, amended: for every read request whose 4-byte access stays inside the
    line at every level and whose address misses at every level, the value
    returned is the fixed word 0xDEADBEEF, whatever the store holds (the
    store is not consulted and not changed), and that word is installed into
    every level. *)
Theorem read_miss_returns_placeholder s r q :
  wfb (sys_cache s) = true ->
  read q = true ->
  is_u32 (address q) ->
  within_lineb (sys_cache s) (address q) = true ->
  misses_everywhere (sys_cache s) (address q) ->
  exists s' rsp,
    cache_pass s r q = Value (s', rsp)
    /\ r_data rsp = 0xDEADBEEF
    /\ sys_store s' = sys_store s
    /\ forall level, 0 <= level < levels (sys_cache s) ->
         hits_at (sys_cache s') level (address q) 0xDEADBEEF.
Proof.
  intros Hwf Hr _ Hin Hmiss.
  destruct (read_miss_pass (sys_cache s) r q Hwf Hr Hin Hmiss)
    as (c' & E & _ & _ & _ & Hhits).
  eexists _, _. split; [apply cache_pass_in; exact E|].
  cbn [r_data sys_store sys_cache]. repeat split.
  intros level Hl. apply Hhits. exact Hl.
Qed.

Lemma read_miss_returns_placeholder_witness :
  exists s' rsp,
    cache_pass System_new 0 (read_req 0x1000) = Value (s', rsp)
    /\ r_data rsp = 0xDEADBEEF
    /\ sys_store s' = sys_store System_new
    /\ forall level, 0 <= level < levels (sys_cache System_new) ->
         hits_at (sys_cache s') level (address (read_req 0x1000)) 0xDEADBEEF.
Proof.
  apply (read_miss_returns_placeholder System_new 0 (read_req 0x1000)).
  - reflexivity.
  - reflexivity.
  - unfold is_u32. cbn. lia.
  - reflexivity.
  - apply configure_misses. reflexivity.
Defined.

(** ** C2: read and write asserted together *)

(** C2 fails on the code: [process_cache] tests [read] first and serves the
    request as a read. On the constructed cache the request misses, puts
    0xDEADBEEF on [r_data], raises [ready] and fills level 0, which did not
    hold the address before. [Memory::process_memory] has the test the cache
    lacks: the same request leaves the store as it was. *)
Theorem simultaneous_request_is_served_as_read :
  exists c',
    process_cache Cache_new 0 both_asserted
    = Value (c', {| r_data := 0xDEADBEEF; ready := true; waited := 0 |})
    /\ misses_at Cache_new 0 0x1000
    /\ hits_at c' 0 0x1000 0xDEADBEEF
    /\ caches c' <> caches Cache_new
    /\ Memory.process_memory Memory.init 0 both_asserted
       = Value (Memory.init, {| r_data := 0; ready := true; waited := 0 |}).
Proof.
  eexists. split; [vm_compute; reflexivity|].
  split; [vm_compute; reflexivity|].
  split; [vm_compute; reflexivity|].
  split; [|vm_compute; reflexivity].
  vm_compute. discriminate.
Qed.

(** ** C3: writes and the store *)

(** C3, as stated, fails: after the write of 0x12345678 at address 0 in a
    system whose store was just constructed, a read of the store at address 0
    gives 0. And a write at address 62 crosses the end of the line: it
    installs nothing. *)
Lemma write_not_forwarded :
  (exists s' rsp,
     cache_pass System_new 0 (write_req 0 0x12345678) = Value (s', rsp)
     /\ Memory.load (sys_store s') 0 = Value 0)
  /\ cache_pass System_new 0 (write_req 62 0x12345678) = Undefined.
Proof.
  split.
  - eexists _, _. split; [vm_compute; reflexivity|].
    vm_compute. reflexivity.
  - vm_compute. reflexivity.
Qed.

(** C3, amended: every write request whose 4-byte access stays inside the
    line at every level installs the write data into every cache level: a
    lookup of the address then hits with the written word at each of them.
    The write is not forwarded: the store is what it was. *)
Theorem write_installs_every_level s r q :
  wfb (sys_cache s) = true ->
  read q = false -> write q = true ->
  is_u32 (address q) -> is_u32 (w_data q) ->
  within_lineb (sys_cache s) (address q) = true ->
  exists s',
    cache_pass s r q = Value (s', {| r_data := r; ready := true; waited := 0 |})
    /\ (forall level, 0 <= level < levels (sys_cache s) ->
          hits_at (sys_cache s') level (address q) (w_data q))
    /\ sys_store s' = sys_store s.
Proof.
  intros Hwf Hr Hw _ Hv Hin.
  destruct (write_pass (sys_cache s) r q Hwf Hr Hw Hin) as (c' & E & _ & _ & _ & Hhits).
  eexists. split; [apply cache_pass_in; exact E|].
  cbn [sys_cache sys_store]. split; [|reflexivity].
  intros level Hl. apply Hhits; assumption.
Qed.

Lemma write_installs_every_level_witness :
  exists s',
    cache_pass System_new 7 (write_req 0 0x12345678)
    = Value (s', {| r_data := 7; ready := true; waited := 0 |})
    /\ (forall level, 0 <= level < levels (sys_cache System_new) ->
          hits_at (sys_cache s') level 0 0x12345678)
    /\ sys_store s' = sys_store System_new.
Proof.
  apply (write_installs_every_level System_new 7 (write_req 0 0x12345678)).
  - reflexivity.
  - reflexivity.
  - reflexivity.
  - unfold is_u32. cbn. lia.
  - unfold is_u32. cbn. lia.
  - reflexivity.
Defined.

(** ** C4: accesses that cross the end of a line *)

(** C4, as stated, fails: at address 62 of the constructed cache the offset
    is 62 and the line size 64, and the lookup at level 0 completes as an
    ordinary miss. *)
Lemma crossing_lookup_is_no_error :
  line_sizes Cache_new !! 0%nat = Some 64
  /\ 62 mod 64 + 4 > 64
  /\ search_cache Cache_new 0 62 0 = Value (false, 0).
Proof.
  split; [reflexivity|]. split; [reflexivity|]. vm_compute. reflexivity.
Qed.

(** C4, amended: the code has no alignment error. A lookup at a level where
    [offset + 4 > line_size], on a slot whose line is not valid or holds
    another tag, is an ordinary miss: it returns [false] and leaves the
    caller's word as it was. A lookup returns no cache: lines are only read. *)
Theorem crossing_lookup_plain_miss c level a d ls lv line :
  0 <= level ->
  line_sizes c !! Z.to_nat level = Some ls ->
  caches c !! Z.to_nat level = Some lv ->
  0 < ls -> 0 < Z.of_nat (length lv) ->
  lv !! Z.to_nat (wrap32 ((a / ls) mod Z.of_nat (length lv))) = Some line ->
  a mod ls + 4 > ls ->
  valid line = false \/ tag line <> a / ls ->
  search_cache c level a d = Value (false, d).
Proof.
  intros Hl Els Elv Hls Hn Eline _ Hline.
  pose proof (index_in_level (a / ls) _ Hn) as Hidx.
  rewrite (search_cache_eq c level a d ls lv line); auto; try lia.
  destruct Hline as [->|Htag]; [reflexivity|].
  apply Z.eqb_neq in Htag. rewrite Htag, andb_false_r. reflexivity.
Qed.

Lemma crossing_lookup_plain_miss_witness :
  search_cache Cache_new 0 62 5 = Value (false, 5).
Proof.
  apply (crossing_lookup_plain_miss Cache_new 0 62 5 64 (fresh_level 1024 64)
           {| valid := false; tag := 0; data := replicate 64%nat 0 |}).
  - lia.
  - reflexivity.
  - reflexivity.
  - lia.
  - reflexivity.
  - reflexivity.
  - reflexivity.
  - left. reflexivity.
Defined.

(** ** C5: write, then read *)

(** C5: for every 32-bit address [a] whose 4-byte access stays inside the
    line at every level and every 32-bit value [v], the pass for [write(a, v)]
    followed by the pass for [read(a)] puts [v] on [r_data]; the read is
    answered by level 0 and waits [latencies[0]]. *)
Theorem write_read_roundtrip c r a v :
  wfb c = true ->
  is_u32 a -> is_u32 v ->
  within_lineb c a = true ->
  exists c1 lat0,
    process_cache c r (write_req a v)
    = Value (c1, {| r_data := r; ready := true; waited := 0 |})
    /\ hits_at c1 0 a v
    /\ latencies c !! 0%nat = Some lat0
    /\ process_cache c1 r (read_req a)
       = Value (c1, {| r_data := v; ready := true; waited := lat0 |}).
Proof.
  intros Hwf _ Hv Hin.
  destruct (write_pass c r (write_req a v) Hwf eq_refl eq_refl Hin)
    as (c1 & E & Hwf1 & Hlat & Hlv & Hhits).
  cbn [address w_data write_req] in *.
  pose proof (wfb_levels c Hwf) as Hn.
  assert (H0 : hits_at c1 0 a v) by (apply Hhits; [exact Hv|lia]).
  destruct (read_hit_pass c1 r (read_req a) 0 v Hwf1 eq_refl) as (lat0 & Elat & E2).
  { lia. }
  { intros l Hl. lia. }
  { exact H0. }
  exists c1, lat0. rewrite <- Hlat. auto.
Qed.

Lemma write_read_roundtrip_witness :
  exists c1 lat0,
    process_cache Cache_new 0 (write_req 0 0x12345678)
    = Value (c1, {| r_data := 0; ready := true; waited := 0 |})
    /\ hits_at c1 0 0 0x12345678
    /\ latencies Cache_new !! 0%nat = Some lat0
    /\ process_cache c1 0 (read_req 0)
       = Value (c1, {| r_data := 0x12345678; ready := true; waited := lat0 |}).
Proof.
  apply (write_read_roundtrip Cache_new 0 0 0x12345678).
  - reflexivity.
  - unfold is_u32. lia.
  - unfold is_u32. lia.
  - reflexivity.
Defined.

(** ** C6: the latency of a full miss *)

(** C6, as stated, fails: the level latencies of the constructed cache sum
    to 4, and the pass for a read that misses at every level waits 0, which
    is the sum plus no access cost at all. At address 62, which misses at
    every level too, the pass reports nothing: the fill crosses the end of
    the line. *)
Lemma read_miss_latency_is_not_the_sum :
  misses_everywhere Cache_new 0x1000
  /\ foldr Z.add 0 (latencies Cache_new) = 4
  /\ (exists c' rsp,
        process_cache Cache_new 0 (read_req 0x1000) = Value (c', rsp)
        /\ forall cost, 0 <= cost ->
             waited rsp <> foldr Z.add 0 (latencies Cache_new) + cost)
  /\ misses_everywhere Cache_new 62
  /\ process_cache Cache_new 0 (read_req 62) = Undefined.
Proof.
  split; [apply configure_misses; reflexivity|].
  split; [reflexivity|].
  split.
  - eexists _, _. split; [vm_compute; reflexivity|].
    intros cost Hcost. cbn. lia.
  - split; [apply configure_misses; reflexivity|].
    vm_compute. reflexivity.
Qed.

(** C6, amended: for every read request whose 4-byte access stays inside the
    line at every level and whose address misses at every level, the pass
    raises [ready] without any latency wait: the latency it reports is 0,
    whatever the latencies of the levels. *)
Theorem read_miss_no_wait c r q :
  wfb c = true ->
  read q = true ->
  is_u32 (address q) ->
  within_lineb c (address q) = true ->
  misses_everywhere c (address q) ->
  exists c' rsp,
    process_cache c r q = Value (c', rsp)
    /\ ready rsp = true
    /\ waited rsp = 0.
Proof.
  intros Hwf Hr _ Hin Hmiss.
  destruct (read_miss_pass c r q Hwf Hr Hin Hmiss) as (c' & E & _).
  eexists _, _. split; [exact E|]. split; reflexivity.
Qed.

Lemma read_miss_no_wait_witness :
  exists c' rsp,
    process_cache Cache_new 0 (read_req 0x1000) = Value (c', rsp)
    /\ ready rsp = true
    /\ waited rsp = 0.
Proof.
  apply (read_miss_no_wait Cache_new 0 (read_req 0x1000)).
  - reflexivity.
  - reflexivity.
  - unfold is_u32. cbn. lia.
  - reflexivity.
  - apply configure_misses. reflexivity.
Defined.

(** ** C7: a hit changes nothing *)

(** C7: for every read request that misses at the levels before [L] and
    hits at level [L], the pass puts on [r_data] the word [search_cache]
    joined from the matching line of level [L], waits [latencies[L]], and
    returns the cache it was given: no level is changed. *)
Theorem read_hit_frame c r q L w :
  wfb c = true ->
  read q = true ->
  is_u32 (address q) ->
  0 <= L < levels c ->
  (forall l, 0 <= l < L -> misses_at c l (address q)) ->
  hits_at c L (address q) w ->
  exists lat,
    latencies c !! Z.to_nat L = Some lat
    /\ process_cache c r q
       = Value (c, {| r_data := w; ready := true; waited := lat |}).
Proof.
  intros Hwf Hr _ HL Hpre Hhit. eapply read_hit_pass; eauto.
Qed.

Lemma read_hit_frame_witness :
  exists lat,
    latencies level1_only !! Z.to_nat 1 = Some lat
    /\ process_cache level1_only 0 (read_req 0)
       = Value (level1_only, {| r_data := 0x12345678; ready := true; waited := lat |}).
Proof.
  apply (read_hit_frame level1_only 0 (read_req 0) 1 0x12345678).
  - vm_compute. reflexivity.
  - reflexivity.
  - unfold is_u32. cbn. lia.
  - vm_compute. split; [discriminate|reflexivity].
  - intros l Hl. assert (l = 0) as -> by lia. vm_compute. reflexivity.
  - vm_compute. reflexivity.
Defined.

(** ** C8: the cold miss and the fill *)

(** C8: on a cache as constructed, for every 32-bit address whose 4-byte
    access stays inside the line at every level (the addresses of the data
    model, [offset + 4 <= line_size]), [read(a)] misses at every level and is
    filled, and a second [read(a)] is answered by level 0 with the latency
    of level 0. *)
Theorem cold_miss_then_hit sizes lsizes lats n a r r' :
  wfb (configure sizes lsizes lats n) = true ->
  is_u32 a ->
  within_lineb (configure sizes lsizes lats n) a = true ->
  misses_everywhere (configure sizes lsizes lats n) a
  /\ exists c1 lat0,
       process_cache (configure sizes lsizes lats n) r (read_req a)
       = Value (c1, {| r_data := 0xDEADBEEF; ready := true; waited := 0 |})
       /\ hits_at c1 0 a 0xDEADBEEF
       /\ lats !! 0%nat = Some lat0
       /\ process_cache c1 r' (read_req a)
          = Value (c1, {| r_data := 0xDEADBEEF; ready := true; waited := lat0 |}).
Proof.
  intros Hwf _ Hin.
  pose proof (configure_misses sizes lsizes lats n a Hwf) as Hmiss.
  split; [exact Hmiss|].
  destruct (read_miss_pass _ r (read_req a) Hwf eq_refl Hin Hmiss)
    as (c1 & E & Hwf1 & Hlat & Hlv & Hhits).
  cbn [address read_req] in *.
  pose proof (wfb_levels _ Hwf) as Hn.
  assert (H0 : hits_at c1 0 a miss_word) by (apply Hhits; lia).
  destruct (read_hit_pass c1 r' (read_req a) 0 miss_word Hwf1 eq_refl) as (lat0 & Elat & E2).
  { lia. }
  { intros l Hl. lia. }
  { exact H0. }
  exists c1, lat0. rewrite Hlat in Elat. auto.
Qed.

Lemma cold_miss_then_hit_witness :
  misses_everywhere Cache_new 0x1000
  /\ exists c1 lat0,
       process_cache Cache_new 0 (read_req 0x1000)
       = Value (c1, {| r_data := 0xDEADBEEF; ready := true; waited := 0 |})
       /\ hits_at c1 0 0x1000 0xDEADBEEF
       /\ [1; 3] !! 0%nat = Some lat0
       /\ process_cache c1 0xDEADBEEF (read_req 0x1000)
          = Value (c1, {| r_data := 0xDEADBEEF; ready := true; waited := lat0 |}).
Proof.
  apply (cold_miss_then_hit [1024; 2048] [64; 64] [1; 3] 2 0x1000 0 0xDEADBEEF).
  - reflexivity.
  - unfold is_u32. lia.
  - reflexivity.
Defined.

(** ** C9: direct-mapped conflicts *)



(** ** C10: the shape of the levels *)

(** C10: an install, and a pass of the protocol for any request (read,
    write, both or none), keep the sizes fixed at construction and keep the
    invariant that each level has [cache_size / line_size] lines and each
    line a data array of [line_size] bytes. A lookup returns no cache: it
    only reads the one it is given. *)
Theorem structure_preserved c :
  structure_okb c = true ->
  (forall level a w c',
      update_cache c level a w = Value c' ->
      structure_okb c' = true
      /\ cache_sizes c' = cache_sizes c /\ line_sizes c' = line_sizes c)
  /\ (forall r q c' rsp,
        process_cache c r q = Value (c', rsp) ->
        structure_okb c' = true
        /\ cache_sizes c' = cache_sizes c /\ line_sizes c' = line_sizes c).
Proof.
  intros Hok. split.
  - intros level a w c' H. split; [eapply update_cache_structure; eauto|].
    apply update_cache_config in H. tauto.
  - intros r q c' rsp H. split; [eapply process_cache_structure; eauto|].
    eapply process_cache_config; eauto.
Qed.

Lemma structure_preserved_witness :
  structure_okb Cache_new = true
  /\ (forall level a w c',
        update_cache Cache_new level a w = Value c' ->
        structure_okb c' = true
        /\ cache_sizes c' = cache_sizes Cache_new
        /\ line_sizes c' = line_sizes Cache_new)
  /\ (forall r q c' rsp,
        process_cache Cache_new r q = Value (c', rsp) ->
        structure_okb c' = true
        /\ cache_sizes c' = cache_sizes Cache_new
        /\ line_sizes c' = line_sizes Cache_new).
Proof.
  split; [reflexivity|].
  apply (structure_preserved Cache_new). reflexivity.
Defined.

(** * Further properties of the memory module *)

Lemma page_size_val : Memory.page_size = 4096.
Proof. reflexivity. Qed.

Lemma page_num_val : Memory.page_num = 2 ^ 20.
Proof. reflexivity. Qed.

(** The page and the position of a 32-bit address are inside the store. *)
Lemma address_in_store a :
  is_u32 a ->
  0 <= a / Memory.page_size < Memory.page_num
  /\ 0 <= a mod Memory.page_size < Memory.page_size.
Proof.
  unfold is_u32. rewrite page_size_val, page_num_val. intros Ha. split.
  - split; [apply Z.div_pos; lia|]. apply Z.div_lt_upper_bound; lia.
  - apply Z.mod_pos_bound. lia.
Qed.

Lemma in_bounds_true page position :
  0 <= page < Memory.page_num -> 0 <= position < Memory.page_size ->
  Memory.in_bounds page position = true.
Proof.
  intros Hp Hq. unfold Memory.in_bounds.
  rewrite !andb_true_iff, !Z.leb_le, !Z.ltb_lt. lia.
Qed.

Lemma in_bounds_past_page page position :
  Memory.page_size <= position -> Memory.in_bounds page position = false.
Proof.
  intros Hq. unfold Memory.in_bounds.
  replace (position <? Memory.page_size) with false by (symmetry; apply Z.ltb_ge; lia).
  apply andb_false_r.
Qed.

Lemma cell_get_in m page position :
  0 <= page < Memory.page_num -> 0 <= position < Memory.page_size ->
  Memory.cell_get m page position = Value (cell m page position).
Proof.
  intros Hp Hq. unfold Memory.cell_get. rewrite in_bounds_true by assumption.
  reflexivity.
Qed.

Lemma cell_set_in m page position b :
  0 <= page < Memory.page_num -> 0 <= position < Memory.page_size ->
  Memory.cell_set m page position b
  = Value {| Memory.memory := <[(page, position) := b]> (Memory.memory m) |}.
Proof.
  intros Hp Hq. unfold Memory.cell_set. rewrite in_bounds_true by assumption.
  reflexivity.
Qed.

(** The store after the write loop, cell by cell. *)
Lemma write_loop_in m page position v :
  0 <= page < Memory.page_num ->
  0 <= position -> position + 4 <= Memory.page_size ->
  Memory.write_loop m page position [0; 1; 2; 3] v
  = Value {| Memory.memory :=
       <[(page, position + 3) := Z.land (Z.shiftr (Z.shiftr (Z.shiftr v 8) 8) 8) 255]>
       (<[(page, position + 2) := Z.land (Z.shiftr (Z.shiftr v 8) 8) 255]>
       (<[(page, position + 1) := Z.land (Z.shiftr v 8) 255]>
       (<[(page, position + 0) := Z.land v 255]> (Memory.memory m)))) |}.
Proof.
  intros Hp H0 H4. cbn [Memory.write_loop].
  repeat (rewrite cell_set_in by lia; cbn [obind Memory.memory]).
  reflexivity.
Qed.

Lemma read_loop_in m page position :
  0 <= page < Memory.page_num ->
  0 <= position -> position + 4 <= Memory.page_size ->
  Memory.read_loop m page position [3; 2; 1; 0] 0
  = Value (Z.lor (wrap32 (Z.shiftl
      (Z.lor (wrap32 (Z.shiftl
        (Z.lor (wrap32 (Z.shiftl
          (Z.lor (wrap32 (Z.shiftl 0 8)) (cell m page (position + 3))) 8))
          (cell m page (position + 2))) 8))
        (cell m page (position + 1))) 8))
      (cell m page (position + 0))).
Proof.
  intros Hp H0 H4. cbn [Memory.read_loop].
  repeat (rewrite cell_get_in by lia; cbn [obind]).
  reflexivity.
Qed.

Lemma udiv_page a : udiv a Memory.page_size = Value (a / Memory.page_size).
Proof. reflexivity. Qed.

Lemma umod_page a : umod a Memory.page_size = Value (a mod Memory.page_size).
Proof. reflexivity. Qed.

(** The passes for a read-only and a write-only request inside a page. *)
Lemma memory_read_pass m r q :
  read q = true -> write q = false ->
  is_u32 (address q) ->
  address q mod Memory.page_size + 4 <= Memory.page_size ->
  exists w,
    Memory.read_loop m (address q / Memory.page_size)
      (address q mod Memory.page_size) [3; 2; 1; 0] 0 = Value w
    /\ Memory.process_memory m r q
       = Value (m, {| r_data := w; ready := true; waited := 0 |}).
Proof.
  intros Hr Hw Ha Hfit. destruct (address_in_store _ Ha) as [Hp Hq].
  eexists. split; [apply read_loop_in; lia|].
  unfold Memory.process_memory. rewrite Hr, Hw. cbn [andb].
  rewrite udiv_page, umod_page. cbn [obind].
  rewrite read_loop_in by lia. reflexivity.
Qed.

Lemma memory_write_pass m r q :
  read q = false -> write q = true ->
  is_u32 (address q) ->
  address q mod Memory.page_size + 4 <= Memory.page_size ->
  exists m',
    Memory.write_loop m (address q / Memory.page_size)
      (address q mod Memory.page_size) [0; 1; 2; 3] (w_data q) = Value m'
    /\ Memory.process_memory m r q
       = Value (m', {| r_data := r; ready := true; waited := 0 |}).
Proof.
  intros Hr Hw Ha Hfit. destruct (address_in_store _ Ha) as [Hp Hq].
  eexists. split; [apply write_loop_in; lia|].
  unfold Memory.process_memory. rewrite Hr, Hw. cbn [andb].
  rewrite udiv_page, umod_page. cbn [obind].
  rewrite write_loop_in by lia. reflexivity.
Qed.

Ltac cell_simpl :=
  unfold cell; cbn [Memory.memory];
  repeat first
    [ rewrite lookup_insert_eq
    | rewrite lookup_insert_ne by (intros [=]; lia) ];
  cbn [default from_option].

Lemma memory_store_then_load m r r' a v :
  is_u32 a -> is_u32 v ->
  a mod Memory.page_size + 4 <= Memory.page_size ->
  exists m',
    Memory.process_memory m r (write_req a v)
    = Value (m', {| r_data := r; ready := true; waited := 0 |})
    /\ Memory.process_memory m' r' (read_req a)
       = Value (m', {| r_data := v; ready := true; waited := 0 |}).
Proof.
  intros Ha Hv Hfit. destruct (address_in_store _ Ha) as [Hp Hq].
  destruct (memory_write_pass m r (write_req a v) eq_refl eq_refl Ha Hfit)
    as (m' & Ew & E1).
  cbn [address w_data write_req] in Ew.
  exists m'. split; [exact E1|].
  destruct (memory_read_pass m' r' (read_req a) eq_refl eq_refl Ha Hfit)
    as (w & Er & E2).
  cbn [address read_req] in Er, E2. rewrite E2. do 3 f_equal.
  rewrite read_loop_in in Er by lia. injection Er as <-.
  rewrite write_loop_in in Ew by lia. injection Ew as <-.
  cell_simpl. apply join_split_word. exact Hv.
Qed.

(** X1. Whatever the store holds, a word written at a 32-bit address whose
    four bytes lie in one page is the word a read of that address returns. *)
Theorem memory_write_read_roundtrip m r r' a v :
  is_u32 a -> is_u32 v ->
  a mod Memory.page_size + 4 <= Memory.page_size ->
  exists m',
    Memory.process_memory m r (write_req a v)
    = Value (m', {| r_data := r; ready := true; waited := 0 |})
    /\ Memory.process_memory m' r' (read_req a)
       = Value (m', {| r_data := v; ready := true; waited := 0 |}).
Proof. apply memory_store_then_load. Qed.

Lemma memory_write_read_roundtrip_witness :
  exists m',
    Memory.process_memory Memory.init 0 (write_req 0x1000 0x87654321)
    = Value (m', {| r_data := 0; ready := true; waited := 0 |})
    /\ Memory.process_memory m' 0 (read_req 0x1000)
       = Value (m', {| r_data := 0x87654321; ready := true; waited := 0 |}).
Proof.
  apply (memory_write_read_roundtrip Memory.init 0 0 0x1000 0x87654321).
  - unfold is_u32. lia.
  - unfold is_u32. lia.
  - vm_compute. discriminate.
Defined.

Lemma land_255 x : Z.land x 255 = x mod 256.
Proof. change 255 with (Z.ones 8). rewrite Z.land_ones by lia. reflexivity. Qed.

Lemma shiftr_8 x : Z.shiftr x 8 = x / 256.
Proof. rewrite Z.shiftr_div_pow2 by lia. reflexivity. Qed.

(** The byte that [data & 0xFF] takes after [k] rounds of [data >>= 8]. *)
Lemma byte_of_word v :
  Z.land v 255 = (v / 2 ^ 0) mod 256
  /\ Z.land (Z.shiftr v 8) 255 = (v / 2 ^ 8) mod 256
  /\ Z.land (Z.shiftr (Z.shiftr v 8) 8) 255 = (v / 2 ^ 16) mod 256
  /\ Z.land (Z.shiftr (Z.shiftr (Z.shiftr v 8) 8) 8) 255 = (v / 2 ^ 24) mod 256.
Proof.
  rewrite !land_255, !shiftr_8, !Z.div_div by lia.
  change (2 ^ 0) with 1. rewrite Z.div_1_r. repeat split; reflexivity.
Qed.

(** X2. A write leaves every word of the store whose four bytes are disjoint
    from the four bytes written as it was. *)
Theorem memory_write_frame m r r' a v a' :
  is_u32 a -> is_u32 a' ->
  a mod Memory.page_size + 4 <= Memory.page_size ->
  a' mod Memory.page_size + 4 <= Memory.page_size ->
  a' + 4 <= a \/ a + 4 <= a' ->
  exists m' w,
    Memory.process_memory m r (write_req a v)
    = Value (m', {| r_data := r; ready := true; waited := 0 |})
    /\ Memory.process_memory m r' (read_req a')
       = Value (m, {| r_data := w; ready := true; waited := 0 |})
    /\ Memory.process_memory m' r' (read_req a')
       = Value (m', {| r_data := w; ready := true; waited := 0 |}).
Proof.
  intros Ha Ha' Hfit Hfit' Hdis.
  destruct (address_in_store _ Ha) as [Hp Hq].
  destruct (address_in_store _ Ha') as [Hp' Hq'].
  destruct (memory_write_pass m r (write_req a v) eq_refl eq_refl Ha Hfit)
    as (m' & Ew & E1).
  destruct (memory_read_pass m r' (read_req a') eq_refl eq_refl Ha' Hfit')
    as (w & Er & E2).
  destruct (memory_read_pass m' r' (read_req a') eq_refl eq_refl Ha' Hfit')
    as (w' & Er' & E2').
  cbn [address w_data write_req read_req] in *.
  exists m', w. split; [exact E1|]. split; [exact E2|].
  rewrite E2'. do 3 f_equal.
  rewrite read_loop_in in Er, Er' by lia. injection Er as <-. injection Er' as <-.
  rewrite write_loop_in in Ew by lia. injection Ew as <-.
  pose proof (Z.div_mod a Memory.page_size) as Hd.
  pose proof (Z.div_mod a' Memory.page_size) as Hd'.
  rewrite page_size_val in *.
  unfold cell; cbn [Memory.memory].
  repeat rewrite lookup_insert_ne by (intros [=]; lia).
  reflexivity.
Qed.

Lemma memory_write_frame_witness :
  exists m' w,
    Memory.process_memory Memory.init 0 (write_req 0x1000 0x87654321)
    = Value (m', {| r_data := 0; ready := true; waited := 0 |})
    /\ Memory.process_memory Memory.init 0 (read_req 0x1004)
       = Value (Memory.init, {| r_data := w; ready := true; waited := 0 |})
    /\ Memory.process_memory m' 0 (read_req 0x1004)
       = Value (m', {| r_data := w; ready := true; waited := 0 |}).
Proof.
  apply (memory_write_frame Memory.init 0 0 0x1000 0x87654321 0x1004).
  - unfold is_u32. lia.
  - unfold is_u32. lia.
  - vm_compute. discriminate.
  - vm_compute. discriminate.
  - right. lia.
Defined.

Lemma cell_get_past_page m page position :
  Memory.page_size <= position -> Memory.cell_get m page position = Undefined.
Proof.
  intros Hq. unfold Memory.cell_get. rewrite in_bounds_past_page by lia. reflexivity.
Qed.

Lemma cell_set_past_page m page position b :
  Memory.page_size <= position -> Memory.cell_set m page position b = Undefined.
Proof.
  intros Hq. unfold Memory.cell_set. rewrite in_bounds_past_page by lia. reflexivity.
Qed.

(** X3. A read or a write whose four bytes cross the end of a page indexes
    past the page's vector: the access does not continue in the next page,
    the pass has no defined outcome. *)
Theorem memory_page_crossing m r q :
  read q <> write q ->
  Memory.page_size < address q mod Memory.page_size + 4 ->
  Memory.process_memory m r q = Undefined.
Proof.
  intros Hrw Hcross. unfold Memory.process_memory.
  rewrite udiv_page, umod_page. cbn [obind].
  set (page := address q / Memory.page_size).
  set (position := address q mod Memory.page_size) in *.
  destruct (read q), (write q); try congruence; cbn [andb].
  - cbn [Memory.read_loop]. rewrite cell_get_past_page by lia. reflexivity.
  - cbn [Memory.write_loop].
    destruct (Memory.cell_set m page (position + 0) _) as [m0|]; cbn [obind]; [|reflexivity].
    destruct (Memory.cell_set m0 page (position + 1) _) as [m1|]; cbn [obind]; [|reflexivity].
    destruct (Memory.cell_set m1 page (position + 2) _) as [m2|]; cbn [obind]; [|reflexivity].
    rewrite cell_set_past_page by lia. reflexivity.
Qed.

Lemma memory_page_crossing_witness :
  Memory.process_memory Memory.init 0 (write_req 0xFFE 0x12345678) = Undefined.
Proof.
  apply (memory_page_crossing Memory.init 0 (write_req 0xFFE 0x12345678)).
  - discriminate.
  - vm_compute. reflexivity.
Defined.

(** X4. Every pass of the memory thread raises [ready] and waits no extra
    time; the store changes on a write-only request at most (a request that
    asserts [read] and [write] together changes nothing), and [r_data]
    changes on a read-only request at most. *)
Theorem memory_pass_frame m r q m' rsp :
  Memory.process_memory m r q = Value (m', rsp) ->
  ready rsp = true
  /\ waited rsp = 0
  /\ (read q = true \/ write q = false -> m' = m)
  /\ (read q = false \/ write q = true -> r_data rsp = r).
Proof.
  unfold Memory.process_memory. rewrite udiv_page, umod_page. cbn [obind].
  destruct (read q), (write q); cbn [andb]; intros H.
  - injection H as <- <-. cbn. repeat split.
  - destruct (Memory.read_loop _ _ _ _ _) as [w|]; cbn [obind] in H; [|discriminate].
    injection H as <- <-. cbn. repeat split. intros [?|?]; discriminate.
  - destruct (Memory.write_loop _ _ _ _ _) as [m1|]; cbn [obind] in H; [|discriminate].
    injection H as <- <-. cbn. repeat split. intros [?|?]; discriminate.
  - injection H as <- <-. cbn. repeat split.
Qed.

Lemma memory_pass_frame_witness :
  ready {| r_data := 9; ready := true; waited := 0 |} = true
  /\ waited {| r_data := 9; ready := true; waited := 0 |} = 0
  /\ (read both_asserted = true \/ write both_asserted = false ->
      Memory.init = Memory.init)
  /\ (read both_asserted = false \/ write both_asserted = true ->
      r_data {| r_data := 9; ready := true; waited := 0 |} = 9).
Proof.
  apply (memory_pass_frame Memory.init 9 both_asserted Memory.init
           {| r_data := 9; ready := true; waited := 0 |}).
  reflexivity.
Defined.

(** X5. The constructed memory holds zeros: before any write, a read of a
    32-bit address whose four bytes lie in one page returns 0. *)
Theorem memory_init_reads_zero r a :
  is_u32 a ->
  a mod Memory.page_size + 4 <= Memory.page_size ->
  Memory.process_memory Memory.init r (read_req a)
  = Value (Memory.init, {| r_data := 0; ready := true; waited := 0 |}).
Proof.
  intros Ha Hfit. destruct (address_in_store _ Ha) as [Hp Hq].
  destruct (memory_read_pass Memory.init r (read_req a) eq_refl eq_refl Ha Hfit)
    as (w & Er & E).
  cbn [address read_req] in *. rewrite E. do 3 f_equal.
  rewrite read_loop_in in Er by lia. injection Er as <-.
  unfold cell. cbn [Memory.memory Memory.init]. rewrite !lookup_empty. reflexivity.
Qed.

Lemma memory_init_reads_zero_witness :
  Memory.process_memory Memory.init 5 (read_req 0xFFFFFFFC)
  = Value (Memory.init, {| r_data := 0; ready := true; waited := 0 |}).
Proof.
  apply (memory_init_reads_zero 5 0xFFFFFFFC).
  - unfold is_u32. lia.
  - vm_compute. discriminate.
Defined.

(** X6. The memory is little-endian: after a write of [v] at [a], the byte
    at position [a + i] of the page is byte [i] of [v], the least
    significant byte first. *)
Theorem memory_little_endian m r a v :
  is_u32 a ->
  a mod Memory.page_size + 4 <= Memory.page_size ->
  exists m',
    Memory.process_memory m r (write_req a v)
    = Value (m', {| r_data := r; ready := true; waited := 0 |})
    /\ forall i, 0 <= i < 4 ->
         Memory.cell_get m' (a / Memory.page_size) (a mod Memory.page_size + i)
         = Value ((v / 2 ^ (8 * i)) mod 256).
Proof.
  intros Ha Hfit. destruct (address_in_store _ Ha) as [Hp Hq].
  destruct (memory_write_pass m r (write_req a v) eq_refl eq_refl Ha Hfit)
    as (m' & Ew & E1).
  cbn [address w_data write_req] in *.
  exists m'. split; [exact E1|].
  rewrite write_loop_in in Ew by lia. injection Ew as <-.
  destruct (byte_of_word v) as (B0 & B1 & B2 & B3).
  intros i Hi. rewrite cell_get_in by lia. f_equal.
  assert (i = 0 \/ i = 1 \/ i = 2 \/ i = 3) as [ -> | [ -> | [ -> | -> ] ] ] by lia;
    cell_simpl; assumption.
Qed.

Lemma memory_little_endian_witness :
  exists m',
    Memory.process_memory Memory.init 0 (write_req 0 0x12345678)
    = Value (m', {| r_data := 0; ready := true; waited := 0 |})
    /\ forall i, 0 <= i < 4 ->
         Memory.cell_get m' (0 / Memory.page_size) (0 mod Memory.page_size + i)
         = Value ((0x12345678 / 2 ^ (8 * i)) mod 256).
Proof.
  apply (memory_little_endian Memory.init 0 0 0x12345678).
  - unfold is_u32. lia.
  - vm_compute. discriminate.
Defined.

(** * Further properties of the cache module *)

(** The data array after the store loop, byte by byte. *)
Lemma store_bytes_in bs off w :
  0 <= off -> off + 4 <= Z.of_nat (length bs) -> Z.of_nat (length bs) < 2 ^ 32 ->
  store_bytes bs off [3; 2; 1; 0] w
  = Value (<[Z.to_nat (off + 0) := Z.land (Z.shiftr (Z.shiftr (Z.shiftr w 8) 8) 8) 255]>
          (<[Z.to_nat (off + 1) := Z.land (Z.shiftr (Z.shiftr w 8) 8) 255]>
          (<[Z.to_nat (off + 2) := Z.land (Z.shiftr w 8) 255]>
          (<[Z.to_nat (off + 3) := Z.land w 255]> bs)))).
Proof.
  intros H0 H4 Hlen. cbn [store_bytes].
  rewrite !wrap32_small by lia.
  repeat (rewrite vec_set_in by (rewrite ?length_insert; lia); cbn [obind]).
  reflexivity.
Qed.

(** The join loop reads the four cells it names and nothing else. *)
Lemma load_bytes_ext bs bs' off steps :
  (forall i, i ∈ steps ->
     bs !! Z.to_nat (wrap32 (off + i)) = bs' !! Z.to_nat (wrap32 (off + i))) ->
  forall w, load_bytes bs off steps w = load_bytes bs' off steps w.
Proof.
  induction steps as [|i steps IH]; intros Heq w; cbn [load_bytes]; [reflexivity|].
  rewrite (vec_get_ext bs bs') by (apply Heq; left).
  destruct (vec_get bs' _); cbn [obind]; [|reflexivity].
  apply IH. intros j Hj. apply Heq. right. exact Hj.
Qed.

Lemma load_bytes_defined bs off :
  0 <= off -> off + 4 <= Z.of_nat (length bs) -> Z.of_nat (length bs) < 2 ^ 32 ->
  exists w, load_bytes bs off [0; 1; 2; 3] 0 = Value w.
Proof.
  intros H0 H4 Hlen. cbn [load_bytes]. rewrite !wrap32_small by lia.
  destruct (lookup_lt_is_Some_2 bs (Z.to_nat (off + 0))) as [b0 E0]; [lia|].
  destruct (lookup_lt_is_Some_2 bs (Z.to_nat (off + 1))) as [b1 E1]; [lia|].
  destruct (lookup_lt_is_Some_2 bs (Z.to_nat (off + 2))) as [b2 E2]; [lia|].
  destruct (lookup_lt_is_Some_2 bs (Z.to_nat (off + 3))) as [b3 E3]; [lia|].
  rewrite (vec_get_in bs (off + 0) b0 ltac:(lia) E0),
    (vec_get_in bs (off + 1) b1 ltac:(lia) E1),
    (vec_get_in bs (off + 2) b2 ltac:(lia) E2),
    (vec_get_in bs (off + 3) b3 ltac:(lia) E3).
  cbn [obind]. eexists. reflexivity.
Qed.

(** A 4-byte join that starts in the line and crosses its end leaves the
    vector. *)
Lemma load_bytes_out bs off :
  0 <= off -> Z.of_nat (length bs) < off + 4 -> off + 4 <= 2 ^ 32 ->
  load_bytes bs off [0; 1; 2; 3] 0 = Undefined.
Proof.
  intros H0 Hout Hmax. cbn [load_bytes]. rewrite !wrap32_small by lia.
  destruct (vec_get bs (off + 0)); cbn [obind]; [|reflexivity].
  destruct (vec_get bs (off + 1)); cbn [obind]; [|reflexivity].
  destruct (vec_get bs (off + 2)); cbn [obind]; [|reflexivity].
  rewrite vec_get_out by lia. reflexivity.
Qed.

(** X7. A cache line is big-endian: after an install of [w] at [a] the line
    of the slot is valid, carries the tag of [a], and its byte at
    [offset + i] is byte [3 - i] of [w], the most significant byte first
    (the memory module stores the same word the other way round). *)
Theorem cache_line_big_endian c level a w :
  wfb c = true -> 0 <= level < levels c -> fits_lineb c a level = true ->
  exists c' s lv line,
    update_cache c level a w = Value c'
    /\ decompose c level a = Value s
    /\ vec_get (caches c') level = Value lv
    /\ vec_get lv (slot_index s) = Value line
    /\ valid line = true
    /\ tag line = slot_tag s
    /\ forall i, 0 <= i < 4 ->
         vec_get (data line) (slot_offset s + i)
         = Value ((w / 2 ^ (8 * (3 - i))) mod 256).
Proof.
  intros Hwf Hl Hfit.
  destruct (wfb_level c level Hwf Hl)
    as (lv & cs & ls & lat & Elv & Ecs & Els & Elat & Hls & Hn & Hlen & Hlines).
  pose proof (fits_lineb_inv _ _ _ _ Els Hfit) as Hoff.
  pose proof (index_in_level (a / ls) _ Hn) as Hidx.
  set (index := wrap32 ((a / ls) mod Z.of_nat (length lv))) in *.
  destruct (lookup_lt_is_Some_2 lv (Z.to_nat index)) as [line Eline]; [lia|].
  assert (Hline : Z.of_nat (length (data line)) = ls)
    by (eapply (proj1 (Forall_lookup _ _) Hlines); exact Eline).
  pose proof (Z.mod_pos_bound a ls ltac:(lia)) as Hmod.
  pose proof (store_bytes_in (data line) (a mod ls) w ltac:(lia) ltac:(lia) ltac:(lia))
    as Eb.
  pose proof (lookup_lt_Some _ _ _ Elv) as Hlv.
  match type of Eb with _ = Value ?b => set (bytes := b) in * end.
  eexists _, _, _, _.
  split; [apply (update_cache_in c level a w ls lv line bytes); auto; lia|].
  split; [apply (decompose_in c level a ls lv); auto; lia|].
  cbn [caches slot_index slot_tag slot_offset]. fold index.
  split; [apply vec_get_in; [lia|apply list_lookup_insert_eq; exact Hlv]|].
  split; [apply vec_get_in; [lia|apply list_lookup_insert_eq; lia]|].
  cbn [valid tag data]. split; [reflexivity|]. split; [reflexivity|].
  destruct (byte_of_word w) as (B0 & B1 & B2 & B3).
  intros i Hi. subst bytes.
  assert (i = 0 \/ i = 1 \/ i = 2 \/ i = 3) as [ -> | [ -> | [ -> | -> ] ] ] by lia;
    (apply vec_get_in; [lia|]);
    rewrite ?list_lookup_insert_ne by lia;
    (rewrite list_lookup_insert_eq by (rewrite ?length_insert; lia));
    f_equal; assumption.
Qed.

Lemma cache_line_big_endian_witness :
  exists c' s lv line,
    update_cache Cache_new 0 0 0x12345678 = Value c'
    /\ decompose Cache_new 0 0 = Value s
    /\ vec_get (caches c') 0 = Value lv
    /\ vec_get lv (slot_index s) = Value line
    /\ valid line = true
    /\ tag line = slot_tag s
    /\ forall i, 0 <= i < 4 ->
         vec_get (data line) (slot_offset s + i)
         = Value ((0x12345678 / 2 ^ (8 * (3 - i))) mod 256).
Proof.
  apply (cache_line_big_endian Cache_new 0 0 0x12345678).
  - reflexivity.
  - vm_compute. split; discriminate || reflexivity.
  - reflexivity.
Defined.

(** An install marks the whole line as the block of its address: a lookup
    of another word of that block (same tag, disjoint bytes) then hits and
    joins the bytes the line held before the install. *)
Lemma install_exposes_line c level a w c' a' d ls lv line :
  0 <= level ->
  line_sizes c !! Z.to_nat level = Some ls ->
  caches c !! Z.to_nat level = Some lv ->
  0 < ls < 2 ^ 32 -> 0 < Z.of_nat (length lv) ->
  lv !! Z.to_nat (wrap32 ((a / ls) mod Z.of_nat (length lv))) = Some line ->
  Z.of_nat (length (data line)) = ls ->
  a mod ls + 4 <= ls -> a' mod ls + 4 <= ls ->
  a' / ls = a / ls ->
  a' mod ls + 4 <= a mod ls \/ a mod ls + 4 <= a' mod ls ->
  update_cache c level a w = Value c' ->
  search_cache c' level a' d
  = let* w0 := load_bytes (data line) (a' mod ls) [0; 1; 2; 3] 0 in Value (true, w0).
Proof.
  intros Hl Els Elv Hls Hn Eline Hline Hoff Hoff' Hblock Hdis Hu.
  pose proof (index_in_level (a / ls) _ Hn) as Hidx.
  pose proof (Z.mod_pos_bound a ls ltac:(lia)) as Hmod.
  pose proof (Z.mod_pos_bound a' ls ltac:(lia)) as Hmod'.
  pose proof (store_bytes_in (data line) (a mod ls) w ltac:(lia) ltac:(lia) ltac:(lia))
    as Eb.
  match type of Eb with _ = Value ?b => set (bytes := b) in * end.
  rewrite (update_cache_in c level a w ls lv line bytes Hl Els Elv) in Hu; auto; try lia.
  injection Hu as <-.
  pose proof (lookup_lt_Some _ _ _ Elv) as Hlv.
  erewrite (search_cache_eq _ level a' d ls); cbn [line_sizes caches];
    [ | exact Hl | exact Els | apply list_lookup_insert_eq; exact Hlv | lia
      | rewrite length_insert; lia
      | rewrite length_insert, Hblock; lia
      | rewrite length_insert, Hblock; apply list_lookup_insert_eq; lia ].
  cbn [valid tag data]. rewrite Hblock, Z.eqb_refl. cbn [andb].
  erewrite load_bytes_ext; [reflexivity|].
  intros i Hi. subst bytes. rewrite wrap32_small.
  - assert (0 <= i < 4).
    { repeat (apply elem_of_cons in Hi as [->|Hi]; [lia|]). inversion Hi. }
    rewrite !list_lookup_insert_ne by lia. reflexivity.
  - assert (0 <= i < 4).
    { repeat (apply elem_of_cons in Hi as [->|Hi]; [lia|]). inversion Hi. }
    lia.
Qed.

Lemma update_cache_frames_slot c level a w c' level' a' d s s' :
  update_cache c level a w = Value c' ->
  decompose c level a = Value s ->
  decompose c level' a' = Value s' ->
  level' <> level \/ slot_index s' <> slot_index s ->
  search_cache c' level' a' d = search_cache c level' a' d.
Proof.
  intros Hu Hs Hs' Hother.
  pose proof (update_cache_config _ _ _ _ _ Hu) as (_ & Hlsz & _ & _ & _).
  apply decompose_inv in Hs as (ls & lv & Hl & Els & Elv & Hls & Hn & ->).
  apply decompose_inv in Hs' as (ls' & lv' & Hl' & Els' & Elv' & Hls' & Hn' & ->).
  cbn [slot_index] in Hother.
  destruct (Nat.eq_dec (Z.to_nat level') (Z.to_nat level)) as [Heq|Hne].
  - assert (level' = level) by lia. subst level'.
    assert (ls' = ls) by congruence. assert (lv' = lv) by congruence. subst ls' lv'.
    destruct Hother as [?|Hidx]; [congruence|].
    pose proof (index_in_level (a / ls) (Z.of_nat (length lv)) ltac:(lia)) as Hi.
    pose proof (index_in_level (a' / ls) (Z.of_nat (length lv)) ltac:(lia)) as Hi'.
    destruct (lookup_lt_is_Some_2 lv
      (Z.to_nat (wrap32 ((a' / ls) mod Z.of_nat (length lv))))) as [line0 E0]; [lia|].
    apply update_cache_inv in Hu
      as (ls2 & lv2 & line & bytes & _ & Els2 & Elv2 & _ & _ & _ & _ & _ & ->).
    assert (ls2 = ls) by congruence. assert (lv2 = lv) by congruence. subst ls2 lv2.
    pose proof (lookup_lt_Some _ _ _ Elv) as Hlv.
    rewrite (search_cache_eq c level a' d ls lv line0); auto; try lia.
    erewrite (search_cache_eq _ level a' d ls _ line0); cbn [line_sizes caches];
      [ reflexivity | exact Hl | exact Els
      | apply list_lookup_insert_eq; exact Hlv | lia
      | rewrite length_insert; lia
      | rewrite length_insert; lia
      | rewrite length_insert, list_lookup_insert_ne by lia; exact E0 ].
  - symmetry. apply search_cache_ext; [congruence|].
    symmetry. eapply update_cache_other; eauto.
Qed.

(** X8. An install touches one slot of one level: a lookup at another level,
    or of an address that maps to another index of the same level, gives
    what it gave before the install. *)
Theorem install_frames_other_slots c level a w c' level' a' d s s' :
  update_cache c level a w = Value c' ->
  decompose c level a = Value s ->
  decompose c level' a' = Value s' ->
  level' <> level \/ slot_index s' <> slot_index s ->
  search_cache c' level' a' d = search_cache c level' a' d.
Proof. apply update_cache_frames_slot. Qed.

Lemma install_frames_other_slots_witness :
  exists c',
    update_cache level1_only 0 0x40 0x22222222 = Value c'
    /\ search_cache c' 1 0 0 = search_cache level1_only 1 0 0
    /\ search_cache level1_only 1 0 0 = Value (true, 0x12345678).
Proof.
  eexists. split; [vm_compute; reflexivity|].
  split; [|vm_compute; reflexivity].
  eapply (install_frames_other_slots level1_only 0 0x40 0x22222222 _ 1 0 0).
  - vm_compute. reflexivity.
  - vm_compute. reflexivity.
  - vm_compute. reflexivity.
  - left. lia.
Defined.

(** X9. An install changes four bytes of the line: another word of the same
    block (same tag, disjoint bytes) that the level held before is still
    there, with the same value. *)
Theorem install_keeps_other_words c level a w a' d w' s s' :
  wfb c = true -> 0 <= level < levels c ->
  fits_lineb c a level = true -> fits_lineb c a' level = true ->
  decompose c level a = Value s ->
  decompose c level a' = Value s' ->
  slot_tag s' = slot_tag s ->
  slot_offset s' + 4 <= slot_offset s \/ slot_offset s + 4 <= slot_offset s' ->
  search_cache c level a' d = Value (true, w') ->
  exists c',
    update_cache c level a w = Value c'
    /\ search_cache c' level a' d = Value (true, w').
Proof.
  intros Hwf Hl Hfit Hfit' Hs Hs' Htag Hdis Hhit.
  destruct (wfb_level c level Hwf Hl)
    as (lv & cs & ls & lat & Elv & Ecs & Els & Elat & Hls & Hn & Hlen & Hlines).
  apply decompose_inv in Hs as (ls1 & lv1 & _ & Els1 & Elv1 & _ & _ & ->).
  apply decompose_inv in Hs' as (ls2 & lv2 & _ & Els2 & Elv2 & _ & _ & ->).
  assert (ls1 = ls) by congruence. assert (lv1 = lv) by congruence.
  assert (ls2 = ls) by congruence. assert (lv2 = lv) by congruence.
  subst ls1 lv1 ls2 lv2. cbn [slot_tag slot_offset] in Htag, Hdis.
  pose proof (fits_lineb_inv _ _ _ _ Els Hfit) as Hoff.
  pose proof (fits_lineb_inv _ _ _ _ Els Hfit') as Hoff'.
  pose proof (index_in_level (a / ls) _ Hn) as Hidx.
  destruct (lookup_lt_is_Some_2 lv
    (Z.to_nat (wrap32 ((a / ls) mod Z.of_nat (length lv))))) as [line Eline]; [lia|].
  assert (Hline : Z.of_nat (length (data line)) = ls)
    by (eapply (proj1 (Forall_lookup _ _) Hlines); exact Eline).
  destruct (update_cache_hits c level a w Hwf Hl Hfit) as (c' & Hu & _).
  exists c'. split; [exact Hu|].
  rewrite (install_exposes_line c level a w c' a' d ls lv line); auto; try lia.
  rewrite (search_cache_eq c level a' d ls lv line) in Hhit; auto; try lia.
  - destruct (valid line && (tag line =? a' / ls)); [|discriminate].
    destruct (load_bytes (data line) (a' mod ls) [0; 1; 2; 3] 0) as [w0|];
      cbn [obind] in *; [|discriminate].
    exact Hhit.
  - rewrite Htag. lia.
  - rewrite Htag. exact Eline.
Qed.

Lemma install_keeps_other_words_witness :
  exists c',
    update_cache level1_only 1 4 0x22222222 = Value c'
    /\ search_cache c' 1 0 0 = Value (true, 0x12345678).
Proof.
  eapply (install_keeps_other_words level1_only 1 4 0x22222222 0 0 0x12345678).
  - vm_compute. reflexivity.
  - vm_compute. split; discriminate || reflexivity.
  - reflexivity.
  - reflexivity.
  - vm_compute. reflexivity.
  - vm_compute. reflexivity.
  - reflexivity.
  - left. cbn. lia.
  - vm_compute. reflexivity.
Defined.

Lemma load_zeros (n : nat) off :
  0 <= off -> off + 4 <= Z.of_nat n -> off + 4 <= 2 ^ 32 ->
  load_bytes (replicate n 0) off [0; 1; 2; 3] 0 = Value 0.
Proof.
  intros H0 H4 Hmax. cbn [load_bytes]. rewrite !wrap32_small by lia.
  rewrite (vec_get_in _ (off + 0) 0) by (try apply lookup_replicate_2; lia).
  rewrite (vec_get_in _ (off + 1) 0) by (try apply lookup_replicate_2; lia).
  rewrite (vec_get_in _ (off + 2) 0) by (try apply lookup_replicate_2; lia).
  rewrite (vec_get_in _ (off + 3) 0) by (try apply lookup_replicate_2; lia).
  reflexivity.
Qed.

Lemma update_levels_frame a w lvls :
  forall c c',
    update_levels c lvls a w = Value c' ->
    forall n : nat, (forall l, l ∈ lvls -> Z.to_nat l <> n) ->
    caches c' !! n = caches c !! n.
Proof.
  induction lvls as [|l lvls IH]; cbn [update_levels]; intros c c' H n Hn.
  - injection H as <-. reflexivity.
  - destruct (update_cache c l a w) as [c1|] eqn:E1; cbn [obind] in H; [|discriminate].
    rewrite (IH _ _ H) by (intros l' Hl'; apply Hn; right; exact Hl').
    eapply update_cache_other; [exact E1|].
    intros ->. apply (Hn l); [left|reflexivity].
Qed.

(** Level 0 after the install loop is level 0 after its first install. *)
Lemma update_all_levels_level0 c a w c1 :
  wfb c = true ->
  update_levels c (level_range c) a w = Value c1 ->
  exists c0,
    update_cache c 0 a w = Value c0
    /\ caches c1 !! 0%nat = caches c0 !! 0%nat
    /\ line_sizes c1 = line_sizes c /\ line_sizes c0 = line_sizes c.
Proof.
  intros Hwf H. pose proof (wfb_levels c Hwf) as Hn.
  unfold level_range in H. rewrite seqZ_cons in H by lia. cbn [update_levels] in H.
  destruct (update_cache c 0 a w) as [c0|] eqn:E0; cbn [obind] in H; [|discriminate].
  exists c0. split; [reflexivity|].
  pose proof (update_cache_config _ _ _ _ _ E0) as (_ & Hls0 & _).
  pose proof (update_levels_config _ _ _ _ _ H) as (_ & Hls1).
  split; [|split; congruence].
  eapply update_levels_frame; [exact H|].
  intros l Hl. apply elem_of_seqZ in Hl. lia.
Qed.

(** X10. A fill validates the whole line although it stores one word: on a
    cache as constructed, after the miss of [read(a)] a read of another word
    of the same level-0 line hits at level 0 and returns 0, the content the
    constructor gave the line. *)
Theorem fill_validates_whole_line sizes lsizes lats n a a' r r' s s' :
  wfb (configure sizes lsizes lats n) = true ->
  is_u32 a -> is_u32 a' ->
  within_lineb (configure sizes lsizes lats n) a = true ->
  fits_lineb (configure sizes lsizes lats n) a' 0 = true ->
  decompose (configure sizes lsizes lats n) 0 a = Value s ->
  decompose (configure sizes lsizes lats n) 0 a' = Value s' ->
  slot_tag s' = slot_tag s ->
  slot_offset s' + 4 <= slot_offset s \/ slot_offset s + 4 <= slot_offset s' ->
  exists c1 lat0,
    process_cache (configure sizes lsizes lats n) r (read_req a)
    = Value (c1, {| r_data := 0xDEADBEEF; ready := true; waited := 0 |})
    /\ lats !! 0%nat = Some lat0
    /\ process_cache c1 r' (read_req a')
       = Value (c1, {| r_data := 0; ready := true; waited := lat0 |}).
Proof.
  intros Hwf _ _ Hin Hfit' Hs Hs' Htag Hdis.
  set (c := configure sizes lsizes lats n) in *.
  pose proof (configure_misses sizes lsizes lats n a Hwf) as Hmiss. fold c in Hmiss.
  pose proof (wfb_levels c Hwf) as Hn.
  destruct (read_miss_pass c r (read_req a) Hwf eq_refl Hin Hmiss)
    as (c1 & E & Hwf1 & Hlat & Hlv & _).
  cbn [address read_req] in *.
  assert (Hu : update_levels c (level_range c) a miss_word = Value c1).
  { unfold process_cache in E. cbn [read read_req address] in E.
    rewrite search_levels_all_miss in E.
    2:{ intros l Hl. apply elem_of_seqZ in Hl. apply Hmiss. lia. }
    cbn [obind fst snd] in E.
    destruct (update_levels c (level_range c) a miss_word); cbn [obind] in E;
      [|discriminate].
    injection E as ->. reflexivity. }
  destruct (update_all_levels_level0 c a miss_word c1 Hwf Hu)
    as (c0 & E0 & Hc10 & Hls1 & Hls0).
  destruct (wfb_level c 0 Hwf ltac:(lia))
    as (lv & cs & ls & lat & Elv & Ecs & Els & Elat & Hls & Hnl & Hlen & Hlines).
  apply decompose_inv in Hs as (lsa & lva & _ & Elsa & Elva & _ & _ & ->).
  apply decompose_inv in Hs' as (lsb & lvb & _ & Elsb & Elvb & _ & _ & ->).
  assert (lsa = ls) by congruence. assert (lva = lv) by congruence.
  assert (lsb = ls) by congruence. assert (lvb = lv) by congruence.
  subst lsa lva lsb lvb. cbn [slot_tag slot_offset] in Htag, Hdis.
  pose proof (fits_lineb_inv _ _ _ _ Els (within_lineb_level c a 0 Hin ltac:(lia))) as Hoff.
  pose proof (fits_lineb_inv _ _ _ _ Els Hfit') as Hoff'.
  pose proof (index_in_level (a / ls) _ Hnl) as Hidx.
  destruct (lookup_lt_is_Some_2 lv
    (Z.to_nat (wrap32 ((a / ls) mod Z.of_nat (length lv))))) as [line Eline]; [lia|].
  assert (Hline : Z.of_nat (length (data line)) = ls)
    by (eapply (proj1 (Forall_lookup _ _) Hlines); exact Eline).
  assert (Hzero : exists k : nat, data line = replicate k 0).
  { destruct (configure_level _ _ _ _ _ _ Elv) as (cs' & ls' & ->).
    unfold fresh_level in Eline. apply lookup_replicate_1 in Eline as [-> _].
    eexists. reflexivity. }
  destruct Hzero as [k Hk].
  assert (Hk' : Z.of_nat k = ls) by (rewrite Hk, length_replicate in Hline; exact Hline).
  pose proof (Z.mod_pos_bound a' ls ltac:(lia)) as Hmod'.
  assert (H0 : hits_at c1 0 a' 0).
  { unfold hits_at.
    rewrite (search_cache_ext c1 c0 0 a' 0); [|congruence|exact Hc10].
    rewrite (install_exposes_line c 0 a miss_word c0 a' 0 ls lv line); auto; try lia.
    rewrite Hk, load_zeros by lia. reflexivity. }
  destruct (read_hit_pass c1 r' (read_req a') 0 0 Hwf1 eq_refl) as (lat0 & Elat0 & E2).
  { lia. }
  { intros l Hl'. lia. }
  { exact H0. }
  exists c1, lat0. rewrite Hlat in Elat0. auto.
Qed.

Lemma fill_validates_whole_line_witness :
  exists c1 lat0,
    process_cache Cache_new 0 (read_req 0x1000)
    = Value (c1, {| r_data := 0xDEADBEEF; ready := true; waited := 0 |})
    /\ [1; 3] !! 0%nat = Some lat0
    /\ process_cache c1 0 (read_req 0x1004)
       = Value (c1, {| r_data := 0; ready := true; waited := lat0 |}).
Proof.
  eapply (fill_validates_whole_line [1024; 2048] [64; 64] [1; 3] 2 0x1000 0x1004 0 0).
  - reflexivity.
  - unfold is_u32. lia.
  - unfold is_u32. lia.
  - reflexivity.
  - reflexivity.
  - vm_compute. reflexivity.
  - vm_compute. reflexivity.
  - reflexivity.
  - right. cbn. lia.
Defined.

(** X11. An install retags the line and keeps its other bytes: after [a1]
    and then [a2] (same index, another tag, disjoint bytes) were installed,
    [a1] misses, and the address of the block of [a2] at the offset of [a1]
    hits with the word written for [a1]: bytes of the evicted block are
    served under the new tag. *)
Theorem retag_serves_evicted_bytes c level a1 a2 a3 w1 w2 d s1 s2 s3 :
  wfb c = true -> 0 <= level < levels c ->
  is_u32 w1 ->
  fits_lineb c a1 level = true -> fits_lineb c a2 level = true ->
  decompose c level a1 = Value s1 ->
  decompose c level a2 = Value s2 ->
  decompose c level a3 = Value s3 ->
  slot_index s1 = slot_index s2 ->
  slot_tag s1 <> slot_tag s2 ->
  slot_offset s1 + 4 <= slot_offset s2 \/ slot_offset s2 + 4 <= slot_offset s1 ->
  slot_tag s3 = slot_tag s2 ->
  slot_offset s3 = slot_offset s1 ->
  exists c1 c2,
    update_cache c level a1 w1 = Value c1
    /\ update_cache c1 level a2 w2 = Value c2
    /\ search_cache c2 level a1 d = Value (false, d)
    /\ search_cache c2 level a3 d = Value (true, w1).
Proof.
  intros Hwf Hl Hw1 Hfit1 Hfit2 Hs1 Hs2 Hs3 Hidx Htag Hdis Htag3 Hoff3.
  destruct (update_cache_hits c level a1 w1 Hwf Hl Hfit1) as (c1 & E1 & Hhit1).
  pose proof (update_cache_wfb _ _ _ _ _ E1 Hwf) as Hwf1.
  pose proof (update_cache_config _ _ _ _ _ E1) as (_ & Hlsz & _ & Hlv & _).
  assert (Hfit2' : fits_lineb c1 a2 level = true)
    by (unfold fits_lineb in *; rewrite Hlsz; exact Hfit2).
  assert (Hl1 : 0 <= level < levels c1) by (rewrite Hlv; exact Hl).
  destruct (update_cache_hits c1 level a2 w2 Hwf1 Hl1 Hfit2') as (c2 & E2 & _).
  pose proof (update_cache_decompose _ _ _ _ _ _ _ _ E1 Hs1) as D1.
  pose proof (update_cache_decompose _ _ _ _ _ _ _ _ E1 Hs2) as D2.
  pose proof (update_cache_decompose _ _ _ _ _ _ _ _ E1 Hs3) as D3.
  exists c1, c2. split; [exact E1|]. split; [exact E2|].
  split; [eapply (install_evicts c1 level a2 w2 c2 a1 d s1 s2); eauto|].
  destruct (wfb_level c1 level Hwf1 Hl1)
    as (lv & cs & ls & lat & Elv & Ecs & Els & Elat & Hls & Hn & Hlen & Hlines).
  apply decompose_inv in D1 as (lsa & lva & _ & Elsa & Elva & _ & _ & ->).
  apply decompose_inv in D2 as (lsb & lvb & _ & Elsb & Elvb & _ & _ & ->).
  apply decompose_inv in D3 as (lsc & lvc & _ & Elsc & Elvc & _ & _ & ->).
  assert (lsa = ls) by congruence. assert (lva = lv) by congruence.
  assert (lsb = ls) by congruence. assert (lvb = lv) by congruence.
  assert (lsc = ls) by congruence. assert (lvc = lv) by congruence.
  subst lsa lva lsb lvb lsc lvc.
  cbn [slot_index slot_tag slot_offset] in Hidx, Htag, Hdis, Htag3, Hoff3.
  pose proof (fits_lineb_inv _ _ _ _ Els Hfit2') as Hoff2.
  assert (Hoff1 : a1 mod ls + 4 <= ls).
  { apply (fits_lineb_inv c1 a1 level ls Els).
    unfold fits_lineb in *. rewrite Hlsz. exact Hfit1. }
  pose proof (index_in_level (a2 / ls) _ Hn) as Hi2.
  destruct (lookup_lt_is_Some_2 lv
    (Z.to_nat (wrap32 ((a2 / ls) mod Z.of_nat (length lv))))) as [line Eline]; [lia|].
  assert (Hline : Z.of_nat (length (data line)) = ls)
    by (eapply (proj1 (Forall_lookup _ _) Hlines); exact Eline).
  specialize (Hhit1 Hw1 d).
  rewrite (search_cache_eq c1 level a1 d ls lv line) in Hhit1; auto; try lia.
  2:{ rewrite Hidx. exact Eline. }
  assert (Hload : load_bytes (data line) (a1 mod ls) [0; 1; 2; 3] 0 = Value w1).
  { destruct (valid line && (tag line =? a1 / ls)); [|discriminate].
    destruct (load_bytes (data line) (a1 mod ls) [0; 1; 2; 3] 0) as [w0|];
      cbn [obind] in Hhit1; [|discriminate].
    injection Hhit1 as ->. reflexivity. }
  rewrite (install_exposes_line c1 level a2 w2 c2 a3 d ls lv line); auto; try lia.
  rewrite Hoff3, Hload. reflexivity.
Qed.

Lemma retag_serves_evicted_bytes_witness :
  exists c1 c2,
    update_cache Cache_new 0 0 0x11111111 = Value c1
    /\ update_cache c1 0 0x404 0x22222222 = Value c2
    /\ search_cache c2 0 0 0 = Value (false, 0)
    /\ search_cache c2 0 0x400 0 = Value (true, 0x11111111).
Proof.
  eapply (retag_serves_evicted_bytes Cache_new 0 0 0x404 0x400 0x11111111 0x22222222 0).
  - reflexivity.
  - vm_compute. split; discriminate || reflexivity.
  - unfold is_u32. lia.
  - reflexivity.
  - reflexivity.
  - vm_compute. reflexivity.
  - vm_compute. reflexivity.
  - vm_compute. reflexivity.
  - reflexivity.
  - cbn. lia.
  - left. cbn. lia.
  - reflexivity.
  - reflexivity.
Defined.

(** ** Passes that stay inside the vectors *)

Lemma search_cache_defined c level a d :
  wfb c = true -> 0 <= level < levels c -> fits_lineb c a level = true ->
  exists b w, search_cache c level a d = Value (b, w).
Proof.
  intros Hwf Hl Hfit.
  destruct (wfb_level c level Hwf Hl)
    as (lv & cs & ls & lat & Elv & Ecs & Els & Elat & Hls & Hn & Hlen & Hlines).
  pose proof (fits_lineb_inv _ _ _ _ Els Hfit) as Hoff.
  pose proof (index_in_level (a / ls) _ Hn) as Hidx.
  destruct (lookup_lt_is_Some_2 lv
    (Z.to_nat (wrap32 ((a / ls) mod Z.of_nat (length lv))))) as [line Eline]; [lia|].
  assert (Hline : Z.of_nat (length (data line)) = ls)
    by (eapply (proj1 (Forall_lookup _ _) Hlines); exact Eline).
  pose proof (Z.mod_pos_bound a ls ltac:(lia)) as Hmod.
  rewrite (search_cache_eq c level a d ls lv line); auto; try lia.
  destruct (valid line && (tag line =? a / ls)); [|eexists _, _; reflexivity].
  destruct (load_bytes_defined (data line) (a mod ls)) as [w Ew]; [lia..|].
  rewrite Ew. eexists _, _. reflexivity.
Qed.

Lemma search_levels_defined c a lvls :
  wfb c = true ->
  (forall l, l ∈ lvls -> 0 <= l < levels c /\ fits_lineb c a l = true) ->
  forall d, exists h w,
    search_levels c lvls a d = Value (h, w)
    /\ (forall L, h = Some L -> 0 <= L < levels c).
Proof.
  intros Hwf. induction lvls as [|l lvls IH]; intros Hall d; cbn [search_levels].
  - eexists _, _. split; [reflexivity|]. discriminate.
  - destruct (Hall l) as [Hl Hfit]; [left|].
    destruct (search_cache_defined c l a d Hwf Hl Hfit) as (b & w & E).
    rewrite E. cbn [obind fst snd]. destruct b.
    + eexists _, _. split; [reflexivity|]. intros L [= <-]. exact Hl.
    + apply IH. intros l' Hl'. apply Hall. right. exact Hl'.
Qed.

Lemma within_lineb_ext c c' a :
  line_sizes c' = line_sizes c -> levels c' = levels c ->
  within_lineb c' a = within_lineb c a.
Proof.
  intros Hls Hlv. unfold within_lineb, level_range, fits_lineb.
  rewrite Hls, Hlv. reflexivity.
Qed.

(** A pass for a request whose access stays inside the line at every level
    indexes no vector out of range. *)
Lemma pass_defined c r q :
  wfb c = true -> within_lineb c (address q) = true ->
  exists c' rsp,
    process_cache c r q = Value (c', rsp)
    /\ wfb c' = true
    /\ line_sizes c' = line_sizes c
    /\ latencies c' = latencies c
    /\ levels c' = levels c.
Proof.
  intros Hwf Hin. unfold process_cache.
  destruct (read q).
  - destruct (search_levels_defined c (address q) (level_range c) Hwf) with (d := 0)
      as (h & w & E & Hh).
    { intros l Hl. apply elem_of_seqZ in Hl. split; [lia|].
      apply within_lineb_level; [exact Hin|lia]. }
    rewrite E. cbn [obind fst snd]. destruct h as [L|].
    + destruct (wfb_level c L Hwf (Hh L eq_refl))
        as (lv & cs & ls & lat & _ & _ & _ & Elat & _).
      rewrite (vec_get_in _ _ _ (proj1 (Hh L eq_refl)) Elat). cbn [obind].
      eexists _, _. repeat split; auto.
    + destruct (update_all_levels c (address q) miss_word Hwf Hin)
        as (c' & Eu & Hwf' & Hls & Hlat & Hlv & _).
      rewrite Eu. cbn [obind]. eexists _, _. repeat split; auto.
  - destruct (write q).
    + destruct (update_all_levels c (address q) (w_data q) Hwf Hin)
        as (c' & Eu & Hwf' & Hls & Hlat & Hlv & _).
      rewrite Eu. cbn [obind]. eexists _, _. repeat split; auto.
    + eexists _, _. repeat split; auto.
Qed.

(** X12. Memory safety of the cache thread: from a well-formed cache, a run
    over any sequence of requests (reads, writes, both or none asserted)
    whose 4-byte accesses stay inside the line at every level never indexes
    a vector out of range; it answers every request and ends in a
    well-formed cache. *)
Theorem run_stays_in_bounds qs :
  forall c r,
    wfb c = true ->
    Forall (fun q => within_lineb c (address q) = true) qs ->
    exists c' rsps,
      run_cache c r qs = Value (c', rsps)
      /\ wfb c' = true
      /\ length rsps = length qs.
Proof.
  induction qs as [|q qs IH]; intros c r Hwf Hall; cbn [run_cache].
  - eexists _, _. repeat split; auto.
  - inversion Hall as [|? ? Hq Hqs]; subst.
    destruct (pass_defined c r q Hwf Hq) as (c1 & rsp & E & Hwf1 & Hls & _ & Hlv).
    rewrite E. cbn [obind fst snd].
    destruct (IH c1 (r_data rsp) Hwf1) as (c' & rsps & E' & Hwf' & Hlen).
    { eapply Forall_impl; [exact Hqs|]. intros q' Hq'. cbn beta in *.
      rewrite (within_lineb_ext c c1) by assumption. exact Hq'. }
    rewrite E'. cbn [obind fst snd]. eexists _, _. repeat split; auto.
    cbn [length]. rewrite Hlen. reflexivity.
Qed.

Lemma run_stays_in_bounds_witness :
  exists c' rsps,
    run_cache Cache_new 0
      [write_req 0 0x12345678; read_req 0; read_req 0x1000; both_asserted] = Value (c', rsps)
    /\ wfb c' = true
    /\ length rsps
       = length [write_req 0 0x12345678; read_req 0; read_req 0x1000; both_asserted].
Proof.
  apply (run_stays_in_bounds
           [write_req 0 0x12345678; read_req 0; read_req 0x1000; both_asserted]
           Cache_new 0).
  - reflexivity.
  - repeat constructor.
Defined.

(** X13. A write, or a read that misses at every level, whose access crosses
    the end of a level-0 line has no defined outcome: the first byte store
    of the install at level 0 is past the end of the data array. *)
Theorem crossing_install_undefined c r q ls :
  wfb c = true ->
  line_sizes c !! 0%nat = Some ls ->
  ls + 3 < 2 ^ 32 ->
  ls < address q mod ls + 4 ->
  (read q = false /\ write q = true)
  \/ (read q = true /\ misses_everywhere c (address q)) ->
  process_cache c r q = Undefined.
Proof.
  intros Hwf Els Hmax Hcross Hreq.
  pose proof (wfb_levels c Hwf) as Hn.
  assert (Hu : forall w, update_levels c (level_range c) (address q) w = Undefined).
  { intros w. unfold level_range. rewrite seqZ_cons by lia. cbn [update_levels].
    rewrite (update_cache_crossing c 0 (address q) w ls); auto; lia. }
  unfold process_cache. destruct Hreq as [[Hr Hw]|[Hr Hmiss]]; rewrite Hr.
  - rewrite Hw, Hu. reflexivity.
  - rewrite search_levels_all_miss.
    2:{ intros l Hl. apply elem_of_seqZ in Hl. apply Hmiss. lia. }
    cbn [obind fst snd]. rewrite Hu. reflexivity.
Qed.

Lemma crossing_install_undefined_witness :
  process_cache Cache_new 0 (write_req 62 0x12345678) = Undefined.
Proof.
  apply (crossing_install_undefined Cache_new 0 (write_req 62 0x12345678) 64).
  - reflexivity.
  - reflexivity.
  - lia.
  - vm_compute. reflexivity.
  - left. split; reflexivity.
Defined.

(** X14. A lookup that crosses the end of a resident line has no defined
    outcome either: once [a] is installed, the lookup of an address of the
    same block with [offset + 4 > line_size] matches the tag and joins bytes
    past the end of the data array. *)
Theorem resident_crossing_lookup_undefined c level a w a' d ls :
  wfb c = true -> 0 <= level < levels c ->
  fits_lineb c a level = true ->
  line_sizes c !! Z.to_nat level = Some ls ->
  ls + 3 < 2 ^ 32 ->
  a' / ls = a / ls ->
  ls < a' mod ls + 4 ->
  exists c',
    update_cache c level a w = Value c'
    /\ search_cache c' level a' d = Undefined.
Proof.
  intros Hwf Hl Hfit Els' Hmax Hblock Hcross.
  destruct (wfb_level c level Hwf Hl)
    as (lv & cs & ls0 & lat & Elv & Ecs & Els & Elat & Hls & Hn & Hlen & Hlines).
  assert (ls0 = ls) by congruence. subst ls0.
  pose proof (fits_lineb_inv _ _ _ _ Els Hfit) as Hoff.
  pose proof (index_in_level (a / ls) _ Hn) as Hidx.
  destruct (lookup_lt_is_Some_2 lv
    (Z.to_nat (wrap32 ((a / ls) mod Z.of_nat (length lv))))) as [line Eline]; [lia|].
  assert (Hline : Z.of_nat (length (data line)) = ls)
    by (eapply (proj1 (Forall_lookup _ _) Hlines); exact Eline).
  pose proof (Z.mod_pos_bound a ls ltac:(lia)) as Hmod.
  pose proof (Z.mod_pos_bound a' ls ltac:(lia)) as Hmod'.
  destruct (store_load_bytes (data line) (a mod ls) w) as (bytes & Eb & Hblen & _);
    [lia..|].
  pose proof (lookup_lt_Some _ _ _ Elv) as Hlv.
  eexists. split.
  { apply (update_cache_in c level a w ls lv line bytes); auto; lia. }
  erewrite (search_cache_eq _ level a' d ls); cbn [line_sizes caches];
    [ | lia | exact Els | apply list_lookup_insert_eq; exact Hlv | lia
      | rewrite length_insert; lia
      | rewrite length_insert, Hblock; lia
      | rewrite length_insert, Hblock; apply list_lookup_insert_eq; lia ].
  cbn [valid tag data]. rewrite Hblock, Z.eqb_refl. cbn [andb].
  rewrite load_bytes_out by lia. reflexivity.
Qed.

Lemma resident_crossing_lookup_undefined_witness :
  exists c',
    update_cache Cache_new 0 0 0x12345678 = Value c'
    /\ search_cache c' 0 62 0 = Undefined.
Proof.
  apply (resident_crossing_lookup_undefined Cache_new 0 0 0x12345678 62 0 64).
  - reflexivity.
  - vm_compute. split; discriminate || reflexivity.
  - reflexivity.
  - reflexivity.
  - lia.
  - reflexivity.
  - vm_compute. reflexivity.
Defined.

(** X15. The handshake of the cache thread: a pass raises [ready] exactly
    when [read] or [write] is asserted (an idle edge leaves it low, where the
    memory thread raises it); without [read] the [r_data] signal keeps its
    value and no latency is waited; an idle edge leaves the cache as it
    was; and the latency waited is 0 or the latency of a level. *)
Theorem cache_pass_handshake c r q c' rsp :
  process_cache c r q = Value (c', rsp) ->
  ready rsp = read q || write q
  /\ (read q = false -> r_data rsp = r /\ waited rsp = 0)
  /\ (read q = false -> write q = false -> c' = c)
  /\ (waited rsp = 0
      \/ exists L, 0 <= L < levels c /\ vec_get (latencies c) L = Value (waited rsp)).
Proof.
  unfold process_cache. intros H.
  destruct (read q) eqn:Hr.
  - destruct (search_levels c (level_range c) (address q) 0) as [[[L|] w]|] eqn:Es;
      cbn [obind fst snd] in H; [| |discriminate].
    + destruct (vec_get (latencies c) L) as [lat|] eqn:El; cbn [obind] in H;
        [|discriminate].
      injection H as <- <-. cbn. repeat split; try discriminate.
      right. exists L. split; [|exact El].
      clear - Es. unfold level_range in Es.
      assert (Hin : forall lvls d, search_levels c lvls (address q) d = Value (Some L, w) ->
                L ∈ lvls).
      { induction lvls as [|l lvls IH]; cbn [search_levels]; intros d Hs; [discriminate|].
        destruct (search_cache c l (address q) d) as [[b w0]|]; cbn [obind fst snd] in Hs;
          [|discriminate].
        destruct b; [injection Hs as -> _; left|right; eapply IH; exact Hs]. }
      apply Hin in Es. apply elem_of_seqZ in Es. lia.
    + destruct (update_levels _ _ _ _); cbn [obind] in H; [|discriminate].
      injection H as <- <-. cbn. repeat split; try discriminate. left. reflexivity.
  - destruct (write q).
    + destruct (update_levels _ _ _ _); cbn [obind] in H; [|discriminate].
      injection H as <- <-. cbn. repeat split; try discriminate. left. reflexivity.
    + injection H as <- <-. cbn. repeat split. left. reflexivity.
Qed.

Lemma cache_pass_handshake_witness :
  ready {| r_data := 7; ready := false; waited := 0 |}
  = read (mkRequest false false 0 0) || write (mkRequest false false 0 0)
  /\ (read (mkRequest false false 0 0) = false ->
      r_data {| r_data := 7; ready := false; waited := 0 |} = 7
      /\ waited {| r_data := 7; ready := false; waited := 0 |} = 0)
  /\ (read (mkRequest false false 0 0) = false ->
      write (mkRequest false false 0 0) = false -> Cache_new = Cache_new)
  /\ (waited {| r_data := 7; ready := false; waited := 0 |} = 0
      \/ exists L, 0 <= L < levels Cache_new
           /\ vec_get (latencies Cache_new) L
              = Value (waited {| r_data := 7; ready := false; waited := 0 |})).
Proof.
  apply (cache_pass_handshake Cache_new 7 (mkRequest false false 0 0) Cache_new
           {| r_data := 7; ready := false; waited := 0 |}).
  reflexivity.
Defined.

(** ** Traffic on other slots *)

Lemma update_levels_decompose a w lvls :
  forall c c',
    update_levels c lvls a w = Value c' ->
    forall l x s, decompose c l x = Value s -> decompose c' l x = Value s.
Proof.
  induction lvls as [|l0 lvls IH]; cbn [update_levels]; intros c c' H l x s Hd.
  - injection H as <-. exact Hd.
  - destruct (update_cache c l0 a w) as [c1|] eqn:E1; cbn [obind] in H; [|discriminate].
    eapply IH; [exact H|]. eapply update_cache_decompose; eauto.
Qed.

Lemma process_cache_decompose c r q c' rsp l x s :
  process_cache c r q = Value (c', rsp) ->
  decompose c l x = Value s -> decompose c' l x = Value s.
Proof.
  unfold process_cache. intros H Hd.
  destruct (read q).
  - destruct (search_levels _ _ _ _) as [[[L|] w]|]; cbn [obind fst snd] in H;
      [| |discriminate].
    + destruct (vec_get (latencies c) L); cbn [obind] in H; [|discriminate].
      injection H as <- _. exact Hd.
    + destruct (update_levels _ _ _ _) as [c1|] eqn:E; cbn [obind] in H; [|discriminate].
      injection H as <- _. eapply update_levels_decompose; eauto.
  - destruct (write q).
    + destruct (update_levels _ _ _ _) as [c1|] eqn:E; cbn [obind] in H; [|discriminate].
      injection H as <- _. eapply update_levels_decompose; eauto.
    + injection H as <- _. exact Hd.
Qed.

Lemma update_levels_frames_slot aq w a d s sq lvls :
  slot_index sq <> slot_index s ->
  forall c c',
    update_levels c lvls aq w = Value c' ->
    decompose c 0 a = Value s ->
    decompose c 0 aq = Value sq ->
    search_cache c' 0 a d = search_cache c 0 a d.
Proof.
  intros Hidx. induction lvls as [|l lvls IH]; cbn [update_levels]; intros c c' H Hs Hsq.
  - injection H as <-. reflexivity.
  - destruct (update_cache c l aq w) as [c1|] eqn:E1; cbn [obind] in H; [|discriminate].
    rewrite (IH c1 c' H) by (eapply update_cache_decompose; eauto).
    destruct (Z.eq_dec l 0) as [->|Hl].
    + eapply (update_cache_frames_slot c 0 aq w c1 0 a d sq s); eauto.
    + pose proof (update_cache_config _ _ _ _ _ E1) as (_ & Hlsz & _).
      pose proof (update_cache_inv _ _ _ _ _ E1) as (? & ? & ? & ? & Hl0 & _).
      symmetry. apply search_cache_ext; [congruence|].
      symmetry. eapply update_cache_other; [exact E1|]. lia.
Qed.

(** A pass for an address of another level-0 slot leaves what level 0
    answers for [a] as it was. *)
Lemma pass_frames_slot c r q c' rsp a d s sq :
  process_cache c r q = Value (c', rsp) ->
  decompose c 0 a = Value s ->
  decompose c 0 (address q) = Value sq ->
  slot_index sq <> slot_index s ->
  search_cache c' 0 a d = search_cache c 0 a d.
Proof.
  unfold process_cache. intros H Hs Hsq Hidx.
  destruct (read q).
  - destruct (search_levels _ _ _ _) as [[[L|] w]|]; cbn [obind fst snd] in H;
      [| |discriminate].
    + destruct (vec_get (latencies c) L); cbn [obind] in H; [|discriminate].
      injection H as <- _. reflexivity.
    + destruct (update_levels _ _ _ _) as [c1|] eqn:E; cbn [obind] in H; [|discriminate].
      injection H as <- _. eapply update_levels_frames_slot; eauto.
  - destruct (write q).
    + destruct (update_levels _ _ _ _) as [c1|] eqn:E; cbn [obind] in H; [|discriminate].
      injection H as <- _. eapply update_levels_frames_slot; eauto.
    + injection H as <- _. reflexivity.
Qed.

Lemma run_frames_slot a d s qs :
  forall c r,
    wfb c = true ->
    decompose c 0 a = Value s ->
    Forall (fun q => within_lineb c (address q) = true
                     /\ exists sq, decompose c 0 (address q) = Value sq
                                   /\ slot_index sq <> slot_index s) qs ->
    exists c' rsps,
      run_cache c r qs = Value (c', rsps)
      /\ wfb c' = true
      /\ latencies c' = latencies c
      /\ search_cache c' 0 a d = search_cache c 0 a d.
Proof.
  induction qs as [|q qs IH]; intros c r Hwf Hs Hall; cbn [run_cache].
  - eexists _, _. repeat split; auto.
  - inversion Hall as [|? ? [Hq (sq & Hsq & Hidx)] Hqs]; subst.
    destruct (pass_defined c r q Hwf Hq) as (c1 & rsp & E & Hwf1 & Hls & Hlat & Hlv).
    rewrite E. cbn [obind fst snd].
    destruct (IH c1 (r_data rsp) Hwf1) as (c' & rsps & E' & Hwf' & Hlat' & Hframe).
    { eapply process_cache_decompose; eauto. }
    { eapply Forall_impl; [exact Hqs|]. cbn beta. intros q' [Hq' (sq' & Hsq' & Hidx')].
      split; [rewrite (within_lineb_ext c c1) by assumption; exact Hq'|].
      exists sq'. split; [eapply process_cache_decompose; eauto|exact Hidx']. }
    rewrite E'. cbn [obind fst snd]. eexists _, _.
    split; [reflexivity|]. split; [exact Hwf'|]. split; [congruence|].
    rewrite Hframe. eapply pass_frames_slot; eauto.
Qed.

(** X16. Read-your-writes across other traffic: a word written at [a] is the
    word a later read of [a] returns, from level 0 and with the latency of
    level 0, whatever requests were served in between, as long as their
    addresses map to other level-0 slots than [a] (and stay inside their
    lines). *)
Theorem written_word_survives_other_slots c r r' a v s qs :
  wfb c = true ->
  is_u32 a -> is_u32 v ->
  within_lineb c a = true ->
  decompose c 0 a = Value s ->
  Forall (fun q => within_lineb c (address q) = true
                   /\ exists sq, decompose c 0 (address q) = Value sq
                                 /\ slot_index sq <> slot_index s) qs ->
  exists c1 c2 rsps lat0,
    process_cache c r (write_req a v)
    = Value (c1, {| r_data := r; ready := true; waited := 0 |})
    /\ run_cache c1 r qs = Value (c2, rsps)
    /\ latencies c !! 0%nat = Some lat0
    /\ process_cache c2 r' (read_req a)
       = Value (c2, {| r_data := v; ready := true; waited := lat0 |}).
Proof.
  intros Hwf _ Hv Hin Hs Hall.
  destruct (pass_defined c r (write_req a v) Hwf Hin) as (c1' & rsp' & E0 & _ & Hls & _ & Hlv).
  destruct (write_pass c r (write_req a v) Hwf eq_refl eq_refl Hin)
    as (c1 & E & Hwf1 & Hlat & _ & Hhits).
  rewrite E in E0. injection E0 as <- _.
  cbn [address w_data write_req] in *.
  pose proof (wfb_levels c Hwf) as Hn.
  destruct (run_frames_slot a 0 s qs c1 r Hwf1) as (c2 & rsps & Er & Hwf2 & Hlat2 & Hframe).
  { eapply process_cache_decompose; eauto. }
  { eapply Forall_impl; [exact Hall|]. cbn beta. intros q [Hq (sq & Hsq & Hidx)].
    split; [rewrite (within_lineb_ext c c1) by assumption; exact Hq|].
    exists sq. split; [eapply process_cache_decompose; eauto|exact Hidx]. }
  assert (H0 : hits_at c2 0 a v).
  { unfold hits_at. rewrite Hframe. apply Hhits; [exact Hv|lia]. }
  pose proof (wfb_levels c2 Hwf2) as Hn2.
  destruct (read_hit_pass c2 r' (read_req a) 0 v Hwf2 eq_refl) as (lat0 & Elat & E2).
  { lia. }
  { intros l Hl. lia. }
  { exact H0. }
  exists c1, c2, rsps, lat0. rewrite Hlat2, Hlat in Elat. auto.
Qed.

Lemma written_word_survives_other_slots_witness :
  exists c1 c2 rsps lat0,
    process_cache Cache_new 0 (write_req 0 0x12345678)
    = Value (c1, {| r_data := 0; ready := true; waited := 0 |})
    /\ run_cache c1 0 [read_req 0x1040; write_req 0x80 0x22222222] = Value (c2, rsps)
    /\ latencies Cache_new !! 0%nat = Some lat0
    /\ process_cache c2 0 (read_req 0)
       = Value (c2, {| r_data := 0x12345678; ready := true; waited := lat0 |}).
Proof.
  eapply (written_word_survives_other_slots Cache_new 0 0 0 0x12345678).
  - reflexivity.
  - unfold is_u32. lia.
  - unfold is_u32. lia.
  - reflexivity.
  - vm_compute. reflexivity.
  - repeat constructor;
      try (eexists; split; [vm_compute; reflexivity|cbn; lia]).
Defined.

(** X17. The constructor's loop establishes what the passes rely on: for
    every configuration of 1 to 255 levels whose line sizes are non-zero
    32-bit values not larger than the cache sizes, the constructed cache is
    well formed (each level has [cache_size / line_size >= 1] lines of
    [line_size] bytes, and a latency). *)
Theorem constructor_establishes_invariants sizes lsizes lats n :
  0 < n < 256 ->
  Z.of_nat (length sizes) = n ->
  Z.of_nat (length lats) = n ->
  Forall2 (fun cs ls => 0 < ls < 2 ^ 32 /\ ls <= cs) sizes lsizes ->
  wfb (configure sizes lsizes lats n) = true.
Proof.
  intros Hn Hsz Hlat Hcfg.
  pose proof (Forall2_length _ _ _ Hcfg) as Hlen.
  assert (Hcaches : caches (configure sizes lsizes lats n) = zip_with fresh_level sizes lsizes).
  { cbn [configure caches]. rewrite !take_ge by lia. reflexivity. }
  assert (Hlevel : forall level, 0 <= level < n ->
            exists cs ls lat,
              sizes !! Z.to_nat level = Some cs
              /\ lsizes !! Z.to_nat level = Some ls
              /\ lats !! Z.to_nat level = Some lat
              /\ caches (configure sizes lsizes lats n) !! Z.to_nat level
                 = Some (fresh_level cs ls)
              /\ 0 < ls < 2 ^ 32 /\ ls <= cs).
  { intros level Hl.
    destruct (lookup_lt_is_Some_2 sizes (Z.to_nat level)) as [cs Ecs]; [lia|].
    destruct (lookup_lt_is_Some_2 lats (Z.to_nat level)) as [lat Elat]; [lia|].
    destruct (Forall2_lookup_l _ _ _ _ _ Hcfg Ecs) as (ls & Els & Hls & Hle).
    exists cs, ls, lat. repeat split; auto; try lia.
    rewrite Hcaches. apply lookup_zip_with_Some. exists cs, ls. auto. }
  unfold wfb, structure_okb. rewrite !andb_true_iff, !forallb_level_range.
  change (levels (configure sizes lsizes lats n)) with n.
  rewrite !Z.ltb_lt, Z.eqb_eq.
  split; [split; [lia|split]|].
  - rewrite Hcaches, (length_zip_with_same_l _ _ _ _ Hcfg). exact Hsz.
  - intros level Hl.
    destruct (Hlevel level Hl) as (cs & ls & lat & Ecs & Els & Elat & Elv & Hls & Hle).
    apply level_shape_okb_iff. exists (fresh_level cs ls), cs, ls.
    split; [exact Elv|]. split; [exact Ecs|]. split; [exact Els|].
    unfold fresh_level. rewrite length_replicate. split.
    + rewrite Z2Nat.id; [reflexivity|]. apply Z.div_pos; lia.
    + apply Forall_replicate. unfold line_ok. cbn [data].
      rewrite length_replicate. lia.
  - intros level Hl.
    destruct (Hlevel level Hl) as (cs & ls & lat & Ecs & Els & Elat & Elv & Hls & Hle).
    unfold level_config_okb. rewrite Elv.
    change (line_sizes (configure sizes lsizes lats n)) with lsizes.
    change (latencies (configure sizes lsizes lats n)) with lats.
    rewrite Els, Elat.
    rewrite !andb_true_iff, !Z.ltb_lt. unfold fresh_level. rewrite length_replicate.
    pose proof (Z.div_str_pos cs ls ltac:(lia)). lia.
Qed.

Lemma constructor_establishes_invariants_witness :
  wfb (configure [1024; 2048] [64; 64] [1; 3] 2) = true.
Proof.
  apply (constructor_establishes_invariants [1024; 2048] [64; 64] [1; 3] 2).
  - lia.
  - reflexivity.
  - reflexivity.
  - repeat constructor; lia.
Defined.

(** ** Traffic on other words of the memory *)

(** A read returns the join of the four cells of its address. *)
Lemma memory_read_cells m m' r a :
  is_u32 a ->
  a mod Memory.page_size + 4 <= Memory.page_size ->
  (forall i, 0 <= i < 4 ->
     cell m' (a / Memory.page_size) (a mod Memory.page_size + i)
     = cell m (a / Memory.page_size) (a mod Memory.page_size + i)) ->
  forall w,
    Memory.process_memory m r (read_req a)
    = Value (m, {| r_data := w; ready := true; waited := 0 |}) ->
    Memory.process_memory m' r (read_req a)
    = Value (m', {| r_data := w; ready := true; waited := 0 |}).
Proof.
  intros Ha Hfit Hcells w E. destruct (address_in_store _ Ha) as [Hp Hq].
  destruct (memory_read_pass m r (read_req a) eq_refl eq_refl Ha Hfit) as (w1 & Er & E1).
  destruct (memory_read_pass m' r (read_req a) eq_refl eq_refl Ha Hfit) as (w2 & Er' & E2).
  cbn [address read_req] in *.
  rewrite E1 in E. injection E as <-. rewrite E2. do 3 f_equal.
  rewrite read_loop_in in Er, Er' by lia. injection Er as <-. injection Er' as <-.
  rewrite !Hcells by lia. reflexivity.
Qed.

(** A pass that writes none of the four bytes of [a] leaves them. *)
Lemma memory_pass_keeps_cells m r q a :
  is_u32 a ->
  a mod Memory.page_size + 4 <= Memory.page_size ->
  is_u32 (address q) ->
  address q mod Memory.page_size + 4 <= Memory.page_size ->
  (read q = false -> write q = true -> address q + 4 <= a \/ a + 4 <= address q) ->
  exists m' rsp,
    Memory.process_memory m r q = Value (m', rsp)
    /\ forall i, 0 <= i < 4 ->
         cell m' (a / Memory.page_size) (a mod Memory.page_size + i)
         = cell m (a / Memory.page_size) (a mod Memory.page_size + i).
Proof.
  intros Ha Hfit Hb Hfitb Hdis.
  destruct (address_in_store _ Ha) as [Hp Hq].
  destruct (address_in_store _ Hb) as [Hpb Hqb].
  destruct (read q) eqn:Hr, (write q) eqn:Hw.
  - eexists _, _. split; [|reflexivity].
    unfold Memory.process_memory. rewrite Hr, Hw, udiv_page, umod_page. reflexivity.
  - destruct (memory_read_pass m r q Hr Hw Hb Hfitb) as (w & _ & E).
    eexists _, _. split; [exact E|reflexivity].
  - destruct (memory_write_pass m r q Hr Hw Hb Hfitb) as (m' & Ew & E).
    exists m'. eexists. split; [exact E|].
    rewrite write_loop_in in Ew by lia. injection Ew as <-.
    specialize (Hdis eq_refl eq_refl).
    pose proof (Z.div_mod a Memory.page_size) as Hd.
    pose proof (Z.div_mod (address q) Memory.page_size) as Hd'.
    rewrite page_size_val in *.
    intros i Hi. unfold cell; cbn [Memory.memory].
    repeat rewrite lookup_insert_ne by (intros [=]; lia).
    reflexivity.
  - eexists _, _. split; [|reflexivity].
    unfold Memory.process_memory. rewrite Hr, Hw, udiv_page, umod_page. reflexivity.
Qed.

Lemma run_memory_keeps_cells a qs :
  is_u32 a ->
  a mod Memory.page_size + 4 <= Memory.page_size ->
  Forall (fun q => is_u32 (address q)
                   /\ address q mod Memory.page_size + 4 <= Memory.page_size
                   /\ (read q = false -> write q = true ->
                       address q + 4 <= a \/ a + 4 <= address q)) qs ->
  forall m r,
    exists m' rsps,
      run_memory m r qs = Value (m', rsps)
      /\ forall i, 0 <= i < 4 ->
           cell m' (a / Memory.page_size) (a mod Memory.page_size + i)
           = cell m (a / Memory.page_size) (a mod Memory.page_size + i).
Proof.
  intros Ha Hfit. induction 1 as [|q qs (Hb & Hfitb & Hdis) _ IH]; intros m r;
    cbn [run_memory].
  - eexists _, _. split; reflexivity.
  - destruct (memory_pass_keeps_cells m r q a Ha Hfit Hb Hfitb Hdis) as (m1 & rsp & E & H1).
    rewrite E. cbn [obind fst snd].
    destruct (IH m1 (r_data rsp)) as (m' & rsps & E' & H2).
    rewrite E'. cbn [obind fst snd]. eexists _, _. split; [reflexivity|].
    intros i Hi. rewrite H2, H1 by lia. reflexivity.
Qed.

(** X18. Read-your-writes on the memory: a word written at [a] is the word a
    later read of [a] returns, whatever requests were served in between
    (reads, idle edges, requests asserting both signals, and writes that
    touch none of the four bytes of [a]), each inside one page. *)
Theorem memory_word_survives_other_writes m r r' a v qs :
  is_u32 a -> is_u32 v ->
  a mod Memory.page_size + 4 <= Memory.page_size ->
  Forall (fun q => is_u32 (address q)
                   /\ address q mod Memory.page_size + 4 <= Memory.page_size
                   /\ (read q = false -> write q = true ->
                       address q + 4 <= a \/ a + 4 <= address q)) qs ->
  exists m1 m2 rsps,
    Memory.process_memory m r (write_req a v)
    = Value (m1, {| r_data := r; ready := true; waited := 0 |})
    /\ run_memory m1 r qs = Value (m2, rsps)
    /\ Memory.process_memory m2 r' (read_req a)
       = Value (m2, {| r_data := v; ready := true; waited := 0 |}).
Proof.
  intros Ha Hv Hfit Hall.
  destruct (memory_store_then_load m r r' a v Ha Hv Hfit) as (m1 & E1 & E2).
  destruct (run_memory_keeps_cells a qs Ha Hfit Hall m1 r) as (m2 & rsps & Er & Hcells).
  exists m1, m2, rsps. split; [exact E1|]. split; [exact Er|].
  eapply memory_read_cells; eauto.
Qed.

Lemma memory_word_survives_other_writes_witness :
  exists m1 m2 rsps,
    Memory.process_memory Memory.init 0 (write_req 0 0x12345678)
    = Value (m1, {| r_data := 0; ready := true; waited := 0 |})
    /\ run_memory m1 0 [write_req 0x1000 0x87654321; read_req 0x1000; both_asserted]
       = Value (m2, rsps)
    /\ Memory.process_memory m2 0 (read_req 0)
       = Value (m2, {| r_data := 0x12345678; ready := true; waited := 0 |}).
Proof.
  apply (memory_word_survives_other_writes Memory.init 0 0 0 0x12345678
           [write_req 0x1000 0x87654321; read_req 0x1000; both_asserted]).
  - unfold is_u32. lia.
  - unfold is_u32. lia.
  - vm_compute. discriminate.
  - repeat constructor; try (unfold is_u32; cbn; lia); try (vm_compute; discriminate);
      cbn; intros; try discriminate; lia.
Defined.

(** ** The second level behind the first *)

Lemma update_levels_frames_level_slot aq w a d lvl s sq lvls :
  slot_index sq <> slot_index s ->
  forall c c',
    update_levels c lvls aq w = Value c' ->
    decompose c lvl a = Value s ->
    decompose c lvl aq = Value sq ->
    search_cache c' lvl a d = search_cache c lvl a d.
Proof.
  intros Hidx. induction lvls as [|l lvls IH]; cbn [update_levels]; intros c c' H Hs Hsq.
  - injection H as <-. reflexivity.
  - destruct (update_cache c l aq w) as [c1|] eqn:E1; cbn [obind] in H; [|discriminate].
    rewrite (IH c1 c' H) by (eapply update_cache_decompose; eauto).
    destruct (Z.eq_dec l lvl) as [->|Hl].
    + eapply (update_cache_frames_slot c lvl aq w c1 lvl a d sq s); eauto.
    + pose proof (update_cache_config _ _ _ _ _ E1) as (_ & Hlsz & _).
      pose proof (update_cache_inv _ _ _ _ _ E1) as (? & ? & ? & ? & Hl0 & _).
      pose proof (decompose_inv _ _ _ _ Hs) as (? & ? & Hlvl & _).
      symmetry. apply search_cache_ext; [congruence|].
      symmetry. eapply update_cache_other; [exact E1|]. lia.
Qed.

(** X19. Level 1 backs level 0, and nothing is promoted: when [a2] conflicts
    with [a1] at level 0 (same index, another tag) but not at level 1
    (another index), then after [write(a1, v1)] and [write(a2, v2)] a read of
    [a1] misses at level 0, is answered by level 1 with [v1] and the latency
    of level 1, and leaves the cache as it was, level 0 included. *)
Theorem level1_backs_level0_conflict c r r' a1 a2 v1 v2 s1 s2 t1 t2 :
  wfb c = true -> 1 < levels c ->
  is_u32 a1 -> is_u32 a2 -> is_u32 v1 -> is_u32 v2 ->
  within_lineb c a1 = true -> within_lineb c a2 = true ->
  decompose c 0 a1 = Value s1 -> decompose c 0 a2 = Value s2 ->
  slot_index s1 = slot_index s2 -> slot_tag s1 <> slot_tag s2 ->
  decompose c 1 a1 = Value t1 -> decompose c 1 a2 = Value t2 ->
  slot_index t1 <> slot_index t2 ->
  exists c1 c2 lat1,
    process_cache c r (write_req a1 v1)
    = Value (c1, {| r_data := r; ready := true; waited := 0 |})
    /\ process_cache c1 r (write_req a2 v2)
       = Value (c2, {| r_data := r; ready := true; waited := 0 |})
    /\ misses_at c2 0 a1
    /\ latencies c !! 1%nat = Some lat1
    /\ process_cache c2 r' (read_req a1)
       = Value (c2, {| r_data := v1; ready := true; waited := lat1 |}).
Proof.
  intros Hwf Hn _ _ Hv1 _ Hin1 Hin2 Hs1 Hs2 Hidx0 Htag0 Ht1 Ht2 Hidx1.
  destruct (pass_defined c r (write_req a1 v1) Hwf Hin1)
    as (c1' & rsp' & E0 & _ & Hls & _ & Hlv).
  destruct (write_pass c r (write_req a1 v1) Hwf eq_refl eq_refl Hin1)
    as (c1 & E1 & Hwf1 & Hlat1 & _ & Hhits1).
  rewrite E1 in E0. injection E0 as <- _.
  cbn [address w_data write_req] in *.
  assert (Hin2' : within_lineb c1 a2 = true)
    by (rewrite (within_lineb_ext c c1) by assumption; exact Hin2).
  destruct (write_pass c1 r (write_req a2 v2) Hwf1 eq_refl eq_refl Hin2')
    as (c2 & E2 & Hwf2 & Hlat2 & Hlv2 & _).
  cbn [address w_data write_req] in *.
  assert (Hu2 : update_levels c1 (level_range c1) a2 v2 = Value c2).
  { unfold process_cache in E2. cbn [read write address w_data write_req] in E2.
    destruct (update_levels c1 (level_range c1) a2 v2); cbn [obind] in E2; [|discriminate].
    injection E2 as ->. reflexivity. }
  pose proof (process_cache_decompose _ _ _ _ _ _ _ _ E1 Hs1) as D1.
  pose proof (process_cache_decompose _ _ _ _ _ _ _ _ E1 Hs2) as D2.
  pose proof (process_cache_decompose _ _ _ _ _ _ _ _ E1 Ht1) as T1.
  pose proof (process_cache_decompose _ _ _ _ _ _ _ _ E1 Ht2) as T2.
  assert (Hmiss0 : misses_at c2 0 a1).
  { unfold misses_at.
    destruct (update_all_levels_level0 c1 a2 v2 c2 Hwf1 Hu2)
      as (c0 & Eu0 & Hc20 & Hls2 & Hls0).
    rewrite (search_cache_ext c2 c0 0 a1 0); [|congruence|exact Hc20].
    eapply (install_evicts c1 0 a2 v2 c0 a1 0 s1 s2); eauto. }
  assert (Hhit1 : hits_at c2 1 a1 v1).
  { unfold hits_at.
    rewrite (update_levels_frames_level_slot a2 v2 a1 0 1 t1 t2 (level_range c1)
               ltac:(congruence) c1 c2 Hu2 T1 T2).
    apply Hhits1; [exact Hv1|lia]. }
  destruct (read_hit_pass c2 r' (read_req a1) 1 v1 Hwf2 eq_refl) as (lat1 & Elat & E3).
  { lia. }
  { intros l Hl. assert (l = 0) as -> by lia. exact Hmiss0. }
  { exact Hhit1. }
  exists c1, c2, lat1. rewrite Hlat2, Hlat1 in Elat. auto.
Qed.

Lemma level1_backs_level0_conflict_witness :
  exists c1 c2 lat1,
    process_cache Cache_new 0 (write_req 0 0x11111111)
    = Value (c1, {| r_data := 0; ready := true; waited := 0 |})
    /\ process_cache c1 0 (write_req 0x400 0x22222222)
       = Value (c2, {| r_data := 0; ready := true; waited := 0 |})
    /\ misses_at c2 0 0
    /\ latencies Cache_new !! 1%nat = Some lat1
    /\ process_cache c2 0 (read_req 0)
       = Value (c2, {| r_data := 0x11111111; ready := true; waited := lat1 |}).
Proof.
  eapply (level1_backs_level0_conflict Cache_new 0 0 0 0x400 0x11111111 0x22222222).
  - reflexivity.
  - reflexivity.
  - unfold is_u32. lia.
  - unfold is_u32. lia.
  - unfold is_u32. lia.
  - unfold is_u32. lia.
  - reflexivity.
  - reflexivity.
  - vm_compute. reflexivity.
  - vm_compute. reflexivity.
  - reflexivity.
  - cbn. lia.
  - vm_compute. reflexivity.
  - vm_compute. reflexivity.
  - cbn. lia.
Defined.
